(** * binance-go: request dispatch, request signing and stream subscription

  A shallow embedding of [client/client.go] and [stream/client.go].

  Go strings are byte sequences and are modelled by [string]; a Go [int64]
  is a [Z] with its wrap-around written out; [url.Values] is a finite map
  from keys to value lists.  The standard-library routines whose behaviour
  is fixed by a short, precise specification (query escaping, hex encoding,
  HMAC-SHA256, ASCII lower-casing) are written out; the collaborators whose
  behaviour is not (the JSON codec, [fmt]'s rendering of dynamic values,
  URL parsing, the HTTP and WebSocket transports) are interfaces. *)

From Stdlib Require Import ZArith String Ascii List Bool Lia DecimalString.
From stdpp Require Import gmap strings list sorting.

Local Open Scope string_scope.
Local Open Scope Z_scope.
Local Open Scope list_scope.

Set Warnings "-register-all".

(** ** Bytes *)

Module Bytes.

Definition byte_of_ascii (c : ascii) : Z := Z.of_N (N_of_ascii c).

(** [[]byte(s)] *)
Fixpoint of_string (s : string) : list Z :=
  match s with
  | EmptyString => []
  | String c r => byte_of_ascii c :: of_string r
  end.

End Bytes.

(** ** encoding/hex *)

Module hex.

(** [hextable = "0123456789abcdef"] *)
Definition hextable : string := "0123456789abcdef".

Definition digit (n : Z) : ascii :=
  match String.get (Z.to_nat n) hextable with
  | Some c => c
  | None => "0"%char
  end.

(** [hex.EncodeToString]: two lower-case digits per byte, high nibble first. *)
Fixpoint EncodeToString (src : list Z) : string :=
  match src with
  | [] => EmptyString
  | v :: r =>
      String (digit (Z.shiftr v 4)) (String (digit (Z.land v 15)) (EncodeToString r))
  end.

End hex.

(** ** crypto/sha256 and crypto/hmac (FIPS 180-4, RFC 2104) *)

Module sha256.

Definition w32 (x : Z) : Z := x mod 2 ^ 32.
Definition add32 (x y : Z) : Z := w32 (x + y).
Definition rotr (x n : Z) : Z :=
  Z.lor (Z.shiftr x n) (w32 (Z.shiftl x (32 - n))).
Definition shr (x n : Z) : Z := Z.shiftr x n.
Definition not32 (x : Z) : Z := Z.lxor x (2 ^ 32 - 1).

Definition Ch (x y z : Z) : Z := Z.lxor (Z.land x y) (Z.land (not32 x) z).
Definition Maj (x y z : Z) : Z :=
  Z.lxor (Z.lxor (Z.land x y) (Z.land x z)) (Z.land y z).
Definition Sigma0 (x : Z) : Z := Z.lxor (Z.lxor (rotr x 2) (rotr x 13)) (rotr x 22).
Definition Sigma1 (x : Z) : Z := Z.lxor (Z.lxor (rotr x 6) (rotr x 11)) (rotr x 25).
Definition sigma0 (x : Z) : Z := Z.lxor (Z.lxor (rotr x 7) (rotr x 18)) (shr x 3).
Definition sigma1 (x : Z) : Z := Z.lxor (Z.lxor (rotr x 17) (rotr x 19)) (shr x 10).

(** The round constants and the initial hash value are the first 32 bits of
    the fractional parts of the cube roots of the first 64 primes and of the
    square roots of the first 8 primes (FIPS 180-4, 4.2.2 and 5.3.3). *)
Definition is_prime (n : Z) : bool :=
  forallb (fun d => negb (n mod Z.of_nat d =? 0)) (seq 2 (Z.to_nat n - 2)).

Definition primes (count : nat) : list Z :=
  firstn count (filter is_prime (map Z.of_nat (seq 2 400))).

(** The integer cube root below [2 ^ bits], one bit at a time. *)
Fixpoint cube_root (bits : nat) (n r : Z) : Z :=
  match bits with
  | O => r
  | S b =>
      let c := r + 2 ^ Z.of_nat b in
      cube_root b n (if c * c * c <=? n then c else r)
  end.

Definition K : list Z :=
  Eval vm_compute in map (fun p => w32 (cube_root 36 (p * 2 ^ 96) 0)) (primes 64).

Definition H0 : list Z :=
  Eval vm_compute in map (fun p => w32 (Z.sqrt (p * 2 ^ 64))) (primes 8).

(** Big-endian encoding of [x] on [n] bytes. *)
Fixpoint be_bytes (n : nat) (x : Z) : list Z :=
  match n with
  | O => []
  | S k => Z.land (Z.shiftr x (8 * Z.of_nat k)) 255 :: be_bytes k x
  end.

(** Message padding: a [0x80] byte, zeros up to 56 mod 64, the bit length
    on eight bytes. *)
Definition pad (msg : list Z) : list Z :=
  let len := Z.of_nat (length msg) in
  let zeros := Z.to_nat ((55 - len) mod 64) in
  msg ++ 128 :: repeat 0 zeros ++ be_bytes 8 (8 * len).

Fixpoint words (n : nat) (bs : list Z) : list Z :=
  match n, bs with
  | S k, a :: b :: c :: d :: r =>
      (Z.shiftl a 24 + Z.shiftl b 16 + Z.shiftl c 8 + d) :: words k r
  | _, _ => []
  end.

(** The message schedule, kept most-recent-first: [rev] gives W_0..W_63. *)
Fixpoint extend (n : nat) (w : list Z) : list Z :=
  match n with
  | O => w
  | S k =>
      let t := add32 (add32 (sigma1 (nth 1 w 0)) (nth 6 w 0))
                     (add32 (sigma0 (nth 14 w 0)) (nth 15 w 0)) in
      extend k (t :: w)
  end.

Definition schedule (block : list Z) : list Z :=
  rev (extend 48 (rev (words 16 block))).

Record regs := Regs { ra : Z; rb : Z; rc : Z; rd : Z; re : Z; rf : Z; rg : Z; rh : Z }.

Definition round (s : regs) (kw : Z * Z) : regs :=
  let t1 := add32 (add32 (add32 (rh s) (Sigma1 (re s))) (Ch (re s) (rf s) (rg s)))
                  (add32 (fst kw) (snd kw)) in
  let t2 := add32 (Sigma0 (ra s)) (Maj (ra s) (rb s) (rc s)) in
  Regs (add32 t1 t2) (ra s) (rb s) (rc s) (add32 (rd s) t1) (re s) (rf s) (rg s).

Definition regs_of (h : list Z) : regs :=
  Regs (nth 0 h 0) (nth 1 h 0) (nth 2 h 0) (nth 3 h 0)
       (nth 4 h 0) (nth 5 h 0) (nth 6 h 0) (nth 7 h 0).

Definition compress (h : list Z) (block : list Z) : list Z :=
  let s := fold_left round (combine K (schedule block)) (regs_of h) in
  [ add32 (nth 0 h 0) (ra s); add32 (nth 1 h 0) (rb s);
    add32 (nth 2 h 0) (rc s); add32 (nth 3 h 0) (rd s);
    add32 (nth 4 h 0) (re s); add32 (nth 5 h 0) (rf s);
    add32 (nth 6 h 0) (rg s); add32 (nth 7 h 0) (rh s) ].

Fixpoint blocks (n : nat) (h : list Z) (bs : list Z) : list Z :=
  match n with
  | O => h
  | S k => blocks k (compress h (firstn 64 bs)) (skipn 64 bs)
  end.

(** [sha256.Sum256], as a list of 32 bytes. *)
Definition Sum256 (msg : list Z) : list Z :=
  let p := pad msg in
  flat_map (be_bytes 4) (blocks (Nat.div (length p) 64) H0 p).

End sha256.

Module hmac.

Definition BlockSize : nat := 64.

(** [hmac.New(sha256.New, key)]; [Write(msg)]; [Sum(nil)]. *)
Definition Sum (key msg : list Z) : list Z :=
  let k0 := if Nat.ltb BlockSize (length key) then sha256.Sum256 key else key in
  let k := k0 ++ repeat 0 (BlockSize - length k0) in
  let ipad := map (Z.lxor 0x36) k in
  let opad := map (Z.lxor 0x5c) k in
  sha256.Sum256 (opad ++ sha256.Sum256 (ipad ++ msg)).

End hmac.

(** ** net/url: query escaping and [url.Values] *)

Module url.

Definition in_range (lo hi c : ascii) : bool :=
  (N.leb (N_of_ascii lo) (N_of_ascii c) && N.leb (N_of_ascii c) (N_of_ascii hi))%bool.

Definition alnum (c : ascii) : bool :=
  (in_range "a" "z" c || in_range "A" "Z" c || in_range "0" "9" c)%bool.

(** [shouldEscape(c, encodeQueryComponent)]: everything but the unreserved
    characters of RFC 3986 section 2.3 is escaped. *)
Definition shouldEscape (c : ascii) : bool :=
  if alnum c then false
  else if (Ascii.eqb c "-" || Ascii.eqb c "_" || Ascii.eqb c "." || Ascii.eqb c "~")%bool
       then false
       else true.

Definition upperhex : string := "0123456789ABCDEF".

Definition upper_digit (n : N) : ascii :=
  match String.get (N.to_nat n) upperhex with
  | Some c => c
  | None => "0"%char
  end.

(** [url.QueryEscape] *)
Fixpoint QueryEscape (s : string) : string :=
  match s with
  | EmptyString => EmptyString
  | String c r =>
      if shouldEscape c then
        if Ascii.eqb c " " then String "+" (QueryEscape r)
        else String "%" (String (upper_digit (N.shiftr (N_of_ascii c) 4))
                          (String (upper_digit (N.land (N_of_ascii c) 15))
                             (QueryEscape r)))
      else String c (QueryEscape r)
  end.

Definition ishex (c : ascii) : bool :=
  (in_range "0" "9" c || in_range "a" "f" c || in_range "A" "F" c)%bool.

Definition unhex (c : ascii) : N :=
  if in_range "0" "9" c then N_of_ascii c - N_of_ascii "0"
  else if in_range "a" "f" c then N_of_ascii c - N_of_ascii "a" + 10
  else if in_range "A" "F" c then N_of_ascii c - N_of_ascii "A" + 10
  else 0.

(** [url.QueryUnescape]; [None] stands for an [EscapeError]. *)
Fixpoint QueryUnescape (s : string) : option string :=
  match s with
  | EmptyString => Some EmptyString
  | String c r =>
      if Ascii.eqb c "%" then
        match r with
        | String h (String l r') =>
            if (ishex h && ishex l)%bool then
              option_map (String (ascii_of_N (N.lor (N.shiftl (unhex h) 4) (unhex l))))
                         (QueryUnescape r')
            else None
        | _ => None
        end
      else option_map (String (if Ascii.eqb c "+" then " "%char else c)) (QueryUnescape r)
  end.

(** [strings.Split(s, sep)] for a one-byte separator. *)
Fixpoint Split (sep : ascii) (s : string) : list string :=
  match s with
  | EmptyString => [EmptyString]
  | String c r =>
      if Ascii.eqb c sep then EmptyString :: Split sep r
      else match Split sep r with
           | h :: t => String c h :: t
           | [] => [String c EmptyString]
           end
  end.

(** [strings.Cut(s, sep)] for a one-byte separator: the text before the first
    separator and the text after it (both callers drop the [found] flag). *)
Fixpoint Cut (sep : ascii) (s : string) : string * string :=
  match s with
  | EmptyString => (EmptyString, EmptyString)
  | String c r =>
      if Ascii.eqb c sep then (EmptyString, r)
      else let '(b, a) := Cut sep r in (String c b, a)
  end.

Fixpoint Contains (c : ascii) (s : string) : bool :=
  match s with
  | EmptyString => false
  | String d r => (Ascii.eqb d c || Contains c r)%bool
  end.

Fixpoint Join (sep : string) (l : list string) : string :=
  match l with
  | [] => EmptyString
  | [x] => x
  | x :: r => x +:+ sep +:+ Join sep r
  end.

(** [url.Values] is [map[string][]string]. *)
Abbreviation Values := (gmap string (list string)).

(** [v.Set(key, value)]: [v[key] = []string{value}] ([Set] is reserved) *)
Definition Set_ (v : Values) (key value : string) : Values := <[key := [value]]> v.

(** [v.Add(key, value)]: [v[key] = append(v[key], value)] *)
Definition Add (v : Values) (key value : string) : Values :=
  <[key := default [] (v !! key) ++ [value]]> v.

(** One turn of the loop of [parseQuery]: a segment holding a semicolon, an
    empty segment and a segment whose key or value does not unescape are
    skipped (the error they raise is dropped by [URL.Query]).  Releases of Go
    before 1.17 cut the query at semicolons too; [Encode] writes none, so
    both read an encoded query alike. *)
Definition parse_segment (m : Values) (seg : string) : Values :=
  if Contains ";" seg then m
  else if String.eqb seg EmptyString then m
  else let '(k, v) := Cut "=" seg in
       match QueryUnescape k with
       | None => m
       | Some key =>
           match QueryUnescape v with
           | None => m
           | Some value => Add m key value
           end
       end.

(** [url.ParseQuery] with its error dropped, as [URL.Query] calls it.  The
    loop cuts the query at each ampersand; the segments are those of [Split]
    (the empty segment that [Split] yields for an empty remainder is skipped
    by [parse_segment], as the loop never enters on it). *)
Definition ParseQuery (query : string) : Values :=
  fold_left parse_segment (Split "&" query) ∅.

Definition string_le (a b : string) : Prop := String.leb a b = true.

#[global] Instance string_le_dec (a b : string) : Decision (string_le a b).
Proof. unfold string_le. solve_decision. Defined.

(** The keys of [v], sorted as [slices.Sort] does (byte-wise). *)
Definition sorted_keys (v : Values) : list string :=
  merge_sort string_le (map fst (map_to_list v)).

Definition pair_text (k v : string) : string :=
  QueryEscape k +:+ "=" +:+ QueryEscape v.

(** [v.Encode()]: [key=value] pairs, keys sorted, joined by ampersands. *)
Definition Encode (v : Values) : string :=
  Join "&" (flat_map (fun k => map (pair_text k) (default [] (v !! k))) (sorted_keys v)).

(** The three characters that structure a query. *)
Definition structural (x : ascii) : Prop := x = "&"%char \/ x = "="%char \/ x = ";"%char.

(** Every key of a [Values] built by the parser and by [Set] and [Add] has at
    least one value. *)
Definition populated (v : Values) : Prop :=
  forall k vs, v !! k = Some vs -> vs <> [].

(** [v.Add] of each value of [vs] under the key [k]. *)
Definition add_all (k : string) (m : Values) (vs : list string) : Values :=
  fold_left (fun m v => Add m k v) vs m.

(** The parts of a parsed [url.URL] that the client reads or assigns.  A URL
    parsed by [url.ParseRequestURI] has neither an opaque part nor a
    fragment; scheme, user and host only show in [head] below. *)
Record URL := mkURL {
  Scheme : string;
  Host : string;
  Path : string;
  ForceQuery : bool;
  RawQuery : string
}.

Definition with_Path (u : URL) (p : string) : URL :=
  mkURL (Scheme u) (Host u) p (ForceQuery u) (RawQuery u).

Definition with_RawQuery (u : URL) (q : string) : URL :=
  mkURL (Scheme u) (Host u) (Path u) (ForceQuery u) q.

(** [u.Query()] *)
Definition Query (u : URL) : Values := ParseQuery (RawQuery u).

(** The parser and printer of net/url and [http.NewRequest]'s validation. *)
Class Net := {
  (** [url.ParseRequestURI]; [None] when it returns an error (and a nil URL) *)
  ParseRequestURI : string -> option URL;
  (** what [URL.String] writes before the query: scheme, authority and
      escaped path *)
  head : URL -> string;
  (** whether [http.NewRequest(method, url, nil)] accepts the method and
      the URL text *)
  NewRequest_ok : string -> string -> bool
}.

(** [u.String()] *)
Definition String_ `{Net} (u : URL) : string :=
  head u +:+
  (if (ForceQuery u || negb (String.eqb (RawQuery u) EmptyString))%bool
   then "?" +:+ RawQuery u else EmptyString).

End url.

(** ** fmt, strings, time *)

Module fmt.

(** [fmt.Sprintf("%v", n)] for an [int64]: its decimal text. *)
Definition FormatInt (n : Z) : string := DecimalString.NilZero.string_of_int (Z.to_int n).

(** Values of dynamic type, as [json.Unmarshal] stores them in an
    [interface{}], with [fmt]'s default rendering; and the caller's parameter
    values with their flattening through the codec. *)
Class Dynamic := {
  Value : Type;
  (** [fmt.Sprintf("%v", v)] *)
  Sprint : Value -> string;
  Params : Type;
  (** [json.Marshal(params)] then [json.Unmarshal] into a
      [map[string]interface{}], both errors dropped *)
  Flatten : Params -> gmap string Value
}.

End fmt.

Module json.

(** A type that encoding/json can decode into. *)
Class Decodable (T : Type) := {
  (** the zero value [T{}] *)
  zero : T;
  (** [json.Unmarshal(data, &v)]: the target after the call and the error *)
  Unmarshal : string -> T -> T * option string;
  (** [json.NewDecoder(body).Decode(&v)], likewise *)
  Decode : string -> T -> T * option string
}.

End json.

Module gostrings.

Definition isASCII (s : string) : bool :=
  forallb (fun c => N.ltb (N_of_ascii c) 128) (list_ascii_of_string s).

Definition lower (c : ascii) : ascii :=
  if url.in_range "A" "Z" c then ascii_of_N (N_of_ascii c + 32) else c.

Fixpoint map_bytes (f : ascii -> ascii) (s : string) : string :=
  match s with
  | EmptyString => EmptyString
  | String c r => String (f c) (map_bytes f r)
  end.

(** Unicode case mapping, used outside ASCII. *)
Class Unicode := {
  (** [strings.Map(unicode.ToLower, s)] *)
  MapToLower : string -> string
}.

(** [strings.ToLower]: byte-wise on ASCII-only text, by runes otherwise. *)
Definition ToLower `{Unicode} (s : string) : string :=
  if isASCII s then map_bytes lower s else MapToLower s.

End gostrings.

Module time.

(** An instant, in nanoseconds since the Unix epoch. *)
Definition Time := Z.

(** [t.Unix()]: whole seconds since the epoch. *)
Definition Unix (t : Time) : Z := t / 10 ^ 9.

(** [t.UnixMilli()]: whole milliseconds since the epoch. *)
Definition UnixMilli (t : Time) : Z := t / 10 ^ 6.

End time.

Definition wrap64 (x : Z) : Z := (x + 2 ^ 63) mod 2 ^ 64 - 2 ^ 63.

(** ** net/http, net/textproto: header names *)

Module http.

(** [validHeaderFieldByte]: the token characters of RFC 7230. *)
Definition validHeaderFieldByte (c : ascii) : bool :=
  (url.alnum c || url.Contains c "!#$%&'*+-.^_`|~")%bool.

(** The second loop of [canonicalMIMEHeaderKey]: upper case at the start
    and after each dash, lower case elsewhere. *)
Fixpoint canonical (upper : bool) (s : string) : string :=
  match s with
  | EmptyString => EmptyString
  | String c r =>
      let c' :=
        if upper then
          if url.in_range "a" "z" c then ascii_of_N (N_of_ascii c - 32) else c
        else
          if url.in_range "A" "Z" c then ascii_of_N (N_of_ascii c + 32) else c in
      String c' (canonical (Ascii.eqb c' "-") r)
  end.

(** [textproto.CanonicalMIMEHeaderKey]: a key holding a byte that is no
    token character (a space included) is returned unchanged. *)
Definition CanonicalMIMEHeaderKey (s : string) : string :=
  if forallb validHeaderFieldByte (list_ascii_of_string s) then canonical true s else s.

(** [http.Header] is [map[string][]string]. *)
Abbreviation Header := (gmap string (list string)).

(** [h.Add(key, value)]: the value is appended under the canonical key. *)
Definition Add (h : Header) (key value : string) : Header :=
  let k := CanonicalMIMEHeaderKey key in
  <[k := default [] (h !! k) ++ [value]]> h.

End http.

(** ** package client *)

Module client.

Inductive error :=
| errorString (s : string)      (** [errors.New(s)] *)
| TransportError (s : string)   (** an error returned by [HTTPClient.Do] *)
| DecodeError (s : string).     (** an error returned by the JSON decoder *)

(** [err.Error()] *)
Definition Error (e : error) : string :=
  match e with
  | errorString s | TransportError s | DecodeError s => s
  end.

Record Response := { StatusCode : Z; Body : string }.

Record HTTPRequest := {
  Method : string;
  Target : string;
  Header : http.Header
}.

(** [HTTPClient.Do]: a response or nil, and an error text or nil. *)
Definition Transport := HTTPRequest -> option Response * option string.

Record API := {
  URL : string;
  Key : string;
  SecretKey : string;
  HTTPClient : option Transport;
  UserAgent : string;
  AutoReconnect : bool
}.

Definition ReconnectLimit : Z := 10.

Definition New (url key secretKey : string) (httpClient : option Transport)
    (userAgent : string) : API :=
  {| URL := url; Key := key; SecretKey := secretKey; HTTPClient := httpClient;
     UserAgent := userAgent; AutoReconnect := true |}.

Record binanceError := { Code : Z; Msg : string }.

(** What a call does besides returning: the log line, the exchange with the
    transport, the write to the caller's output value, the deferred closes. *)
Inductive Event (T : Type) :=
| LogPrintf (line : string)
| Do (req : HTTPRequest)
| Decoded (out : T)
| BodyClose.
Arguments LogPrintf {T} line.
Arguments Do {T} req.
Arguments Decoded {T} out.
Arguments BodyClose {T}.

(** A call either returns its [error] result or panics on a nil pointer. *)
Inductive Outcome :=
| Panic
| Return (err : option error).

Section Dispatcher.

Context `{NET : url.Net} `{DYN : fmt.Dynamic}.
Context {BE : json.Decodable binanceError}.
Context {T : Type} {DT : json.Decodable T}.

(** The loop [for k, v := range m { q.Set(k, fmt.Sprintf("%v", v)) }].  The
    keys of a map are distinct, so the order of the range does not show. *)
Definition set_all (q : url.Values) (m : gmap string fmt.Value) : url.Values :=
  map_fold (fun k v acc => url.Set_ acc k (fmt.Sprint v)) q m.

(** The request that [http.NewRequest] and the three [req.Header.Add] build
    (an empty method stands for GET). *)
Definition NewRequest (a : API) (method : string) (u : url.URL) : HTTPRequest :=
  {| Method := if String.eqb method EmptyString then "GET" else method;
     Target := url.String_ u;
     Header := http.Add
                 (http.Add (http.Add ∅ "content-type" "application/json")
                           "X-MBX-APIKEY" (Key a))
                 "UserAgent" (UserAgent a) |}.

(** The bag as a [Values]: each key with its one stringified value. *)
Definition stringified (m : gmap string fmt.Value) : url.Values :=
  (fun v => [fmt.Sprint v]) <$> m.

(** The response that a call on the resolved URL [u] receives, when the
    request is built, the client is set and the transport returns one. *)
Definition response (a : API) (method : string) (u : url.URL) : option Response :=
  if url.NewRequest_ok method (url.String_ u) then
    match HTTPClient a with
    | Some do => fst (do (NewRequest a method u))
    | None => None
    end
  else None.

(** Lines 61 to 83 of [Request], which are lines 111 to 134 of
    [SignedRequest] but for the second [defer res.Body.Close()] that the
    latter registers once the status is 200 ([second_defer]). *)
Definition exchange (a : API) (method : string) (u : url.URL) (out : option T)
    (second_defer : bool) : list (Event T) * Outcome :=
  let line := method +:+ " " +:+ url.String_ u in
  if negb (url.NewRequest_ok method (url.String_ u)) then
    (* req is nil and req.Header dereferences it *)
    ([LogPrintf line], Panic)
  else
    let req := NewRequest a method u in
    match HTTPClient a with
    | None => ([LogPrintf line], Panic)
    | Some do =>
        let '(res, err) := do req in
        match res with
        | None =>
            (* [defer res.Body.Close()] evaluates [res.Body] on a nil [res] *)
            ([LogPrintf line; Do req], Panic)
        | Some r =>
            if negb (StatusCode r =? 200) then
              let '(e, _) := json.Decode (Body r) (json.zero : binanceError) in
              ([LogPrintf line; Do req; BodyClose], Return (Some (errorString (Msg e))))
            else
              let closes := if second_defer then [BodyClose; BodyClose] else [BodyClose] in
              match out with
              | Some o =>
                  let '(o', derr) := json.Decode (Body r) o in
                  ([LogPrintf line; Do req; Decoded o'] ++ closes,
                   Return (option_map DecodeError derr))
              | None =>
                  ([LogPrintf line; Do req] ++ closes,
                   Return (option_map TransportError err))
              end
        end
    end.

(** The URL that [Request] resolves, [None] when [a.URL] does not parse. *)
Definition Request_URL (a : API) (method endpoint : string) (params : fmt.Params)
    : option url.URL :=
  match url.ParseRequestURI (URL a) with
  | None => None
  | Some u0 =>
      let u := url.with_Path u0 (url.Path u0 +:+ endpoint) in
      if String.eqb method "GET" then
        let m := fmt.Flatten params in
        let q := set_all (url.Query u) m in
        Some (url.with_RawQuery u (url.Encode q))
      else Some u
  end.

(** [func (a *API) Request(method, endpoint string, params, out interface{}) error] *)
Definition Request (a : API) (method endpoint : string) (params : fmt.Params)
    (out : option T) : list (Event T) * Outcome :=
  match Request_URL a method endpoint params with
  | None => ([], Panic)   (* url is nil and url.Path dereferences it *)
  | Some u => exchange a method u out false
  end.

(** The timestamp parameter: [fmt.Sprintf("%v", time.Now().Unix()*1000)]. *)
Definition timestamp (now : time.Time) : string :=
  fmt.FormatInt (wrap64 (time.Unix now * 1000)).

(** The query of a signed request before it is signed. *)
Definition signed_Values (u : url.URL) (params : fmt.Params) (now : time.Time)
    : url.Values :=
  let m := fmt.Flatten params in
  let q := set_all (url.Query u) m in
  url.Add q "timestamp" (timestamp now).

(** [hex.EncodeToString] of the HMAC-SHA256 of [text] under the secret key. *)
Definition sign (a : API) (text : string) : string :=
  hex.EncodeToString (hmac.Sum (Bytes.of_string (SecretKey a)) (Bytes.of_string text)).

(** The URL that [SignedRequest] resolves at time [now]. *)
Definition SignedRequest_URL (a : API) (endpoint : string) (params : fmt.Params)
    (now : time.Time) : option url.URL :=
  match url.ParseRequestURI (URL a) with
  | None => None
  | Some u0 =>
      let u := url.with_Path u0 (url.Path u0 +:+ endpoint) in
      let q := signed_Values u params now in
      let signed := sign a (url.Encode q) in
      Some (url.with_RawQuery u (url.Encode q +:+ "&signature=" +:+ signed))
  end.

(** [func (a *API) SignedRequest(method, endpoint string, params, out interface{}) error],
    called at time [now]. *)
Definition SignedRequest (a : API) (method endpoint : string) (params : fmt.Params)
    (out : option T) (now : time.Time) : list (Event T) * Outcome :=
  match SignedRequest_URL a endpoint params now with
  | None => ([], Panic)
  | Some u => exchange a method u out true
  end.

End Dispatcher.

(** *** Stream *)

(** What the WebSocket transport answers to one turn of the read loop: a
    message, or a read error together with what [Close] and a new [Dial]
    answer if the loop calls them ([None] for a nil error). *)
Inductive Input :=
| Message (m : string)
| ReadError (err : string) (closeErr : option string) (redial : option string).

(** What a subscription does: dial, log, exit the process, close a
    connection, start [handler(m)] on a goroutine of its own. *)
Inductive Action (H : Type) :=
| Dial (url : string)
| LogPrintln (line : string)
| LogFatal (line : string)
| Close (conn : nat)
| Go (h : H).
Arguments Dial {H} url.
Arguments LogPrintln {H} line.
Arguments LogFatal {H} line.
Arguments Close {H} conn.
Arguments Go {H} h.

(** The read loop's variables: the connection in [websocketClient] (named by
    the number of the dial that opened it) and [reconnects]. *)
Record Session := { conn : nat; reconnects : Z }.

Inductive Status :=
| Open (s : Session)   (** blocked in [ReadMessage] *)
| Closed               (** the loop has returned *)
| Exited.              (** [log.Fatal] has ended the process *)

Section Subscriber.

Context {H : Type}.

(** [func (a *API) connect(endpoint string) *websocket.Conn]; [dial] is the
    dialer's error, [fresh] names the connection it opens. *)
Definition connect (endpoint : string) (dial : option string) (fresh : nat)
    : list (Action H) * option nat :=
  let url := "wss://stream.binance.com:9443/ws/" +:+ endpoint in
  match dial with
  | Some err => ([Dial url; LogFatal ("dial:" +:+ err)], None)
  | None => ([Dial url], Some fresh)
  end.

(** One turn of the [for] loop of [Stream]'s goroutine.  The deferred
    [websocketClient.Close()] was bound to the first connection. *)
Definition turn (a : API) (endpoint : string) (handler : string -> H)
    (first : nat) (s : Session) (i : Input) : list (Action H) * Status :=
  match i with
  | Message m => ([Go (handler m)], Open s)
  | ReadError err closeErr redial =>
      if (AutoReconnect a && (reconnects s <? ReconnectLimit))%bool then
        let closing :=
          Close (conn s) ::
          match closeErr with
          | Some e => [LogPrintln ("close: " +:+ e)]
          | None => []
          end in
        let reconnects' := reconnects s + 1 in
        match connect endpoint redial (S (conn s)) with
        | (acts, Some c) =>
            (LogPrintln ("read: " +:+ err) :: closing ++ acts,
             Open {| conn := c; reconnects := reconnects' |})
        | (acts, None) => (LogPrintln ("read: " +:+ err) :: closing ++ acts, Exited)
        end
      else ([LogPrintln ("read: " +:+ err); Close first], Closed)
  end.

(** The loop on the successive answers of the transport; it stays [Open]
    when they are used up. *)
Fixpoint loop (a : API) (endpoint : string) (handler : string -> H)
    (first : nat) (s : Session) (inputs : list Input) : list (Action H) * Status :=
  match inputs with
  | [] => ([], Open s)
  | i :: rest =>
      match turn a endpoint handler first s i with
      | (acts, Open s') =>
          let '(acts', st) := loop a endpoint handler first s' rest in
          (acts ++ acts', st)
      | (acts, st) => (acts, st)
      end
  end.

(** [func (a *API) Stream(endpoint string, handler StreamHandler)] and the
    goroutine it starts; [dial] answers the first [connect]. *)
Definition Stream (a : API) (endpoint : string) (handler : string -> H)
    (dial : option string) (inputs : list Input) : list (Action H) * Status :=
  match connect endpoint dial 0%nat with
  | (acts, None) => (acts, Exited)
  | (acts, Some c) =>
      let '(acts', st) :=
        loop a endpoint handler c {| conn := c; reconnects := 0 |} inputs in
      (acts ++ acts', st)
  end.

End Subscriber.

(** The number of dials in a run, and the handler runs it starts. *)
Fixpoint dials {H} (acts : list (Action H)) : Z :=
  match acts with
  | [] => 0
  | Dial _ :: r => 1 + dials r
  | _ :: r => dials r
  end.

Fixpoint started {H} (acts : list (Action H)) : list H :=
  match acts with
  | [] => []
  | Go h :: r => h :: started r
  | _ :: r => started r
  end.

(** Whether the dialer would succeed if this turn asked it to. *)
Definition redial_ok (i : Input) : bool :=
  match i with
  | ReadError _ _ (Some _) => false
  | _ => true
  end.

(** The read errors among the transport's answers. *)
Fixpoint read_errors (inputs : list Input) : Z :=
  match inputs with
  | [] => 0
  | ReadError _ _ _ :: r => 1 + read_errors r
  | Message _ :: r => read_errors r
  end.

End client.

(** ** package stream *)

Module stream.

Record Client := { API : client.API }.

(** Modelled from the spec: the parameter structs [DepthParams] and
    [KlineParams] are declared outside the two source files; the spec gives
    them a symbol and, for candlesticks, an interval, both printed with [%s]. *)
Record DepthParams := { Symbol : string }.
Record KlineParams := { KlineSymbol : string; Interval : string }.

(** A typed handler started on a goroutine of its own: [go handler(out)]. *)
Inductive Invocation (S : Type) :=
| Invoke (out : S).
Arguments Invoke {S} out.

Section Decoders.

Context `{UNI : gostrings.Unicode}.
(** [DepthStream] and [KlineStream] are declared outside the two source
    files; they are any two types the codec decodes into. *)
Context {DepthStream : Type} {DD : json.Decodable DepthStream}.
Context {KlineStream : Type} {KD : json.Decodable KlineStream}.

(** The closure that [Depth] and [Kline] hand to [Stream]. *)
Definition wrap {S : Type} `{json.Decodable S} (d : string) : list (Invocation S) :=
  let out := json.zero in
  let '(out, _) := json.Unmarshal d out in
  [Invoke out].

Definition Depth_endpoint (params : DepthParams) : string :=
  gostrings.ToLower (Symbol params) +:+ "@depth".

Definition Kline_endpoint (params : KlineParams) : string :=
  gostrings.ToLower (KlineSymbol params) +:+ "@kline_" +:+ Interval params.

(** [func (c *Client) Depth(params DepthParams, handler DepthHandler)] *)
Definition Depth (c : Client) (params : DepthParams)
    (dial : option string) (inputs : list client.Input)
    : list (client.Action (list (Invocation DepthStream))) * client.Status :=
  let endpoint := Depth_endpoint params in
  client.Stream (API c) endpoint wrap dial inputs.

(** [func (c *Client) Kline(params KlineParams, handler KlineHandler)] *)
Definition Kline (c : Client) (params : KlineParams)
    (dial : option string) (inputs : list client.Input)
    : list (client.Action (list (Invocation KlineStream))) * client.Status :=
  let endpoint := Kline_endpoint params in
  client.Stream (API c) endpoint wrap dial inputs.

End Decoders.

End stream.

(** ** Reference collaborators

    Small executable instances of the interfaces above, on which the
    examples run: a JSON reader for ASCII texts (no [\u] escapes) that
    follows encoding/json on struct targets, a reader of
    [scheme://host/path?query] URLs, and dynamic values without numbers. *)

Module Reference.

Definition quote : string := String (ascii_of_nat 34) EmptyString.

Inductive JSON :=
| JNull
| JBool (b : bool)
| JNumber (literal : string)
| JString (s : string)
| JArray (items : list JSON)
| JObject (members : list (string * JSON)).

Definition is_space (c : ascii) : bool :=
  (Ascii.eqb c " " || Ascii.eqb c (ascii_of_nat 9)
   || Ascii.eqb c (ascii_of_nat 10) || Ascii.eqb c (ascii_of_nat 13))%bool.

Fixpoint skip_space (s : string) : string :=
  match s with
  | String c r => if is_space c then skip_space r else s
  | EmptyString => s
  end.

Definition is_digit (c : ascii) : bool := url.in_range "0" "9" c.

Fixpoint take_digits (s : string) : string * string :=
  match s with
  | String c r =>
      if is_digit c then let '(d, t) := take_digits r in (String c d, t)
      else (EmptyString, s)
  | EmptyString => (EmptyString, EmptyString)
  end.

(** A JSON number: the literal and the rest of the text. *)
Definition read_number (s : string) : option (string * string) :=
  let '(sign, s1) :=
    match s with
    | String c r => if Ascii.eqb c "-" then ("-", r) else (EmptyString, s)
    | EmptyString => (EmptyString, s)
    end in
  let '(int, s2) := take_digits s1 in
  if String.eqb int EmptyString then None
  else if (String.prefix "0" int && negb (String.eqb int "0"))%bool then None
  else
    let '(frac, s3) :=
      match s2 with
      | String c r =>
          if Ascii.eqb c "." then let '(d, t) := take_digits r in ("." +:+ d, t)
          else (EmptyString, s2)
      | EmptyString => (EmptyString, s2)
      end in
    if String.eqb frac "." then None
    else
      match s3 with
      | String c r =>
          if (Ascii.eqb c "e" || Ascii.eqb c "E")%bool then
            let '(esign, r1) :=
              match r with
              | String d r' =>
                  if (Ascii.eqb d "+" || Ascii.eqb d "-")%bool
                  then (String d EmptyString, r') else (EmptyString, r)
              | EmptyString => (EmptyString, r)
              end in
            let '(ed, t) := take_digits r1 in
            if String.eqb ed EmptyString then None
            else Some (sign +:+ int +:+ frac +:+ String c esign +:+ ed, t)
          else Some (sign +:+ int +:+ frac, s3)
      | EmptyString => Some (sign +:+ int +:+ frac, s3)
      end.

(** The characters of a string literal after its opening quote. *)
Fixpoint read_string (s : string) : option (string * string) :=
  match s with
  | EmptyString => None
  | String c r =>
      if Ascii.eqb c (ascii_of_nat 34) then Some (EmptyString, r)
      else if N.ltb (N_of_ascii c) 32 then None
      else if Ascii.eqb c "\" then
        match r with
        | String e r' =>
            let unescaped :=
              if Ascii.eqb e (ascii_of_nat 34) then Some e
              else if Ascii.eqb e "\" then Some e
              else if Ascii.eqb e "/" then Some e
              else if Ascii.eqb e "b" then Some (ascii_of_nat 8)
              else if Ascii.eqb e "f" then Some (ascii_of_nat 12)
              else if Ascii.eqb e "n" then Some (ascii_of_nat 10)
              else if Ascii.eqb e "r" then Some (ascii_of_nat 13)
              else if Ascii.eqb e "t" then Some (ascii_of_nat 9)
              else None in
            match unescaped, read_string r' with
            | Some x, Some (t, rest) => Some (String x t, rest)
            | _, _ => None
            end
        | EmptyString => None
        end
      else
        match read_string r with
        | Some (t, rest) => Some (String c t, rest)
        | None => None
        end
  end.

Definition expect (word : string) (v : JSON) (s : string) : option (JSON * string) :=
  if String.prefix word s
  then Some (v, String.substring (String.length word) (String.length s - String.length word) s)
  else None.

(** One JSON value and the rest of the text; the nesting depth is bounded
    by [fuel]. *)
Fixpoint read_value (fuel : nat) (s : string) : option (JSON * string) :=
  match fuel with
  | O => None
  | S fuel' =>
      let read_items :=
        fix items (n : nat) (s : string) : option (list JSON * string) :=
          match n with
          | O => None
          | S n' =>
              match read_value fuel' s with
              | None => None
              | Some (v, r) =>
                  match skip_space r with
                  | String c r' =>
                      if Ascii.eqb c "," then
                        match items n' r' with
                        | Some (vs, t) => Some (v :: vs, t)
                        | None => None
                        end
                      else if Ascii.eqb c "]" then Some ([v], r')
                      else None
                  | EmptyString => None
                  end
              end
          end in
      let read_members :=
        fix members (n : nat) (s : string) : option (list (string * JSON) * string) :=
          match n with
          | O => None
          | S n' =>
              match skip_space s with
              | String q r0 =>
                  if Ascii.eqb q (ascii_of_nat 34) then
                    match read_string r0 with
                    | None => None
                    | Some (k, r1) =>
                        match skip_space r1 with
                        | String c r2 =>
                            if Ascii.eqb c ":" then
                              match read_value fuel' r2 with
                              | None => None
                              | Some (v, r3) =>
                                  match skip_space r3 with
                                  | String d r4 =>
                                      if Ascii.eqb d "," then
                                        match members n' r4 with
                                        | Some (ms, t) => Some ((k, v) :: ms, t)
                                        | None => None
                                        end
                                      else if Ascii.eqb d "}" then Some ([(k, v)], r4)
                                      else None
                                  | EmptyString => None
                                  end
                              end
                            else None
                        | EmptyString => None
                        end
                    end
                  else None
              | EmptyString => None
              end
          end in
      match skip_space s with
      | EmptyString => None
      | String c r as s' =>
          if Ascii.eqb c "{" then
            match skip_space r with
            | String d r' =>
                if Ascii.eqb d "}" then Some (JObject [], r')
                else match read_members (String.length r) r with
                     | Some (ms, t) => Some (JObject ms, t)
                     | None => None
                     end
            | EmptyString => None
            end
          else if Ascii.eqb c "[" then
            match skip_space r with
            | String d r' =>
                if Ascii.eqb d "]" then Some (JArray [], r')
                else match read_items (String.length r) r with
                     | Some (vs, t) => Some (JArray vs, t)
                     | None => None
                     end
            | EmptyString => None
            end
          else if Ascii.eqb c (ascii_of_nat 34) then
            match read_string r with
            | Some (t, rest) => Some (JString t, rest)
            | None => None
            end
          else if Ascii.eqb c "t" then expect "true" (JBool true) s'
          else if Ascii.eqb c "f" then expect "false" (JBool false) s'
          else if Ascii.eqb c "n" then expect "null" JNull s'
          else match read_number s' with
               | Some (lit, rest) => Some (JNumber lit, rest)
               | None => None
               end
      end
  end.

(** The first JSON value of a text, as a [json.Decoder] reads it. *)
Definition first_value (s : string) : option (JSON * string) :=
  read_value (S (String.length s)) s.

(** A text that is one JSON value, as [json.Unmarshal] requires. *)
Definition whole_value (s : string) : option JSON :=
  match first_value s with
  | Some (v, rest) => if String.eqb (skip_space rest) EmptyString then Some v else None
  | None => None
  end.

Fixpoint digits_value (s : string) (acc : Z) : Z :=
  match s with
  | String c r => digits_value r (10 * acc + Z.of_N (N_of_ascii c - N_of_ascii "0"))
  | EmptyString => acc
  end.

Definition all_digits (s : string) : bool :=
  forallb is_digit (list_ascii_of_string s).

(** A number literal as a Go [int]: an integer literal within 64 bits. *)
Definition as_int (v : JSON) : option Z :=
  match v with
  | JNumber lit =>
      let '(neg, ds) :=
        match lit with
        | String c r => if Ascii.eqb c "-" then (true, r) else (false, lit)
        | EmptyString => (false, lit)
        end in
      if all_digits ds then
        let n := if neg then - digits_value ds 0 else digits_value ds 0 in
        if ((- 2 ^ 63 <=? n) && (n <? 2 ^ 63))%bool then Some n else None
      else None
  | _ => None
  end.

Definition as_string (v : JSON) : option string :=
  match v with
  | JString s => Some s
  | _ => None
  end.

(** A struct field: its JSON name and its setter, [None] when the JSON value
    does not fit the field's type. *)
Definition Field (T : Type) : Type := (string * (JSON -> T -> option T))%type.

Definition find_field {T} (fields : list (Field T)) (key : string) : option (Field T) :=
  match List.find (fun f => String.eqb (fst f) key) fields with
  | Some f => Some f
  | None =>
      List.find (fun f => String.eqb (gostrings.map_bytes gostrings.lower (fst f))
                                     (gostrings.map_bytes gostrings.lower key)) fields
  end.

(** The members of an object are stored one after the other; a null leaves
    its field alone; a value that does not fit is skipped and the first such
    mismatch is the error returned at the end. *)
Fixpoint fill {T} (fields : list (Field T)) (members : list (string * JSON)) (t : T)
    (err : option string) : T * option string :=
  match members with
  | [] => (t, err)
  | (k, v) :: rest =>
      match find_field fields k, v with
      | None, _ | Some _, JNull => fill fields rest t err
      | Some (name, set), _ =>
          match set v t with
          | Some t' => fill fields rest t' err
          | None =>
              let e := "json: cannot unmarshal value into Go struct field " +:+ name in
              fill fields rest t (Some (default e err))
          end
      end
  end.

Definition store {T} (fields : list (Field T)) (v : JSON) (t : T) : T * option string :=
  match v with
  | JObject members => fill fields members t None
  | JNull => (t, None)
  | _ => (t, Some "json: cannot unmarshal value into Go value of struct type")
  end.

Definition unmarshal_struct {T} (fields : list (Field T)) (data : string) (t : T)
    : T * option string :=
  match whole_value data with
  | Some v => store fields v t
  | None => (t, Some "json: syntax error")
  end.

Definition decode_struct {T} (fields : list (Field T)) (body : string) (t : T)
    : T * option string :=
  match first_value body with
  | Some (v, _) => store fields v t
  | None => (t, Some "json: syntax error")
  end.

Definition struct_codec {T} (z : T) (fields : list (Field T)) : json.Decodable T :=
  {| json.zero := z;
     json.Unmarshal := unmarshal_struct fields;
     json.Decode := decode_struct fields |}.

(** [type binanceError struct { Code int `json:"code"`; Msg string `json:"msg"` }] *)
Definition binanceError_fields : list (Field client.binanceError) :=
  [ ("code", fun v e => option_map (fun n => {| client.Code := n; client.Msg := client.Msg e |})
                                   (as_int v));
    ("msg", fun v e => option_map (fun s => {| client.Code := client.Code e; client.Msg := s |})
                                  (as_string v)) ].

#[export] Instance binanceError_codec : json.Decodable client.binanceError :=
  struct_codec {| client.Code := 0; client.Msg := EmptyString |} binanceError_fields.

(** A two-field event in the style of the exchange's stream payloads: an
    event type under ["e"] and an event time under ["E"]. *)
Record StreamEvent := { EventType : string; EventTime : Z }.

Definition StreamEvent_fields : list (Field StreamEvent) :=
  [ ("e", fun v t => option_map (fun s => {| EventType := s; EventTime := EventTime t |})
                                (as_string v));
    ("E", fun v t => option_map (fun n => {| EventType := EventType t; EventTime := n |})
                                (as_int v)) ].

#[export] Instance StreamEvent_codec : json.Decodable StreamEvent :=
  struct_codec {| EventType := EmptyString; EventTime := 0 |} StreamEvent_fields.

(** Dynamic values: strings, booleans and nil, and parameter bags that are
    already flat. *)
Inductive Dyn :=
| DString (s : string)
| DBool (b : bool)
| DNil.

#[export] Instance dynamic : fmt.Dynamic :=
  {| fmt.Value := Dyn;
     fmt.Sprint := fun v =>
       match v with
       | DString s => s
       | DBool true => "true"
       | DBool false => "false"
       | DNil => "<nil>"
       end;
     fmt.Params := gmap string Dyn;
     fmt.Flatten := fun m => m |}.

(** Outside ASCII the reference mapping leaves the bytes as they are. *)
#[export] Instance unicode : gostrings.Unicode :=
  {| gostrings.MapToLower := gostrings.map_bytes gostrings.lower |}.

(** [escape]: the bytes that [keep] rejects become percent escapes. *)
Fixpoint escape_with (keep : ascii -> bool) (s : string) : string :=
  match s with
  | EmptyString => EmptyString
  | String c r =>
      if keep c then String c (escape_with keep r)
      else String "%" (String (url.upper_digit (N.shiftr (N_of_ascii c) 4))
                         (String (url.upper_digit (N.land (N_of_ascii c) 15))
                            (escape_with keep r)))
  end.

(** [shouldEscape(c, encodePath)] negated: a path keeps the unreserved
    characters and the reserved ones but the question mark. *)
Definition keep_in_path (c : ascii) : bool :=
  (negb (url.shouldEscape c) || url.Contains c "$&+,/:;=@")%bool.

(** [shouldEscape(c, encodeHost)] negated. *)
Definition keep_in_host (c : ascii) : bool :=
  (negb (url.shouldEscape c)
   || url.Contains c "!$&'()*+,;=:[]<>" || Ascii.eqb c (ascii_of_nat 34))%bool.

(** [unescape(s, encodePath)]: percent escapes are decoded, a plus sign is
    kept. *)
Fixpoint unescape_path (s : string) : option string :=
  match s with
  | EmptyString => Some EmptyString
  | String c r =>
      if Ascii.eqb c "%" then
        match r with
        | String h (String l r') =>
            if (url.ishex h && url.ishex l)%bool then
              option_map (String (ascii_of_N (N.lor (N.shiftl (url.unhex h) 4) (url.unhex l))))
                         (unescape_path r')
            else None
        | _ => None
        end
      else option_map (String c) (unescape_path r)
  end.

(** [getScheme]: a letter, then letters, digits, plus, minus and dot. *)
Definition valid_scheme (s : string) : bool :=
  match s with
  | EmptyString => false
  | String c r =>
      ((url.in_range "a" "z" c || url.in_range "A" "Z" c)
       && forallb (fun d => (url.alnum d || url.Contains d "+-.")%bool)
                  (list_ascii_of_string r))%bool
  end.

(** URLs of the form [scheme://host], [scheme://host/path] and
    [scheme://host/path?query], without user information; the host is taken
    as it is written, the path is unescaped. *)
Definition parse_url (raw : string) : option url.URL :=
  let '(scheme, rest) := url.Cut ":" raw in
  if (negb (valid_scheme scheme) || negb (String.prefix "//" rest))%bool then None
  else
    let rest := String.substring 2 (String.length rest - 2) rest in
    let force := (String.eqb (snd (url.Cut "?" rest)) EmptyString
                  && url.Contains "?" rest)%bool in
    let '(hostpath, query) := url.Cut "?" rest in
    let '(host, path) := url.Cut "/" hostpath in
    let path := if url.Contains "/" hostpath then "/" +:+ path else EmptyString in
    match unescape_path path with
    | Some path => Some (url.mkURL scheme host path force query)
    | None => None
    end.

(** What [URL.String] writes before the query for a URL without user
    information, opaque part and raw path: the scheme, the escaped host and
    the escaped path, a slash put before a path that lacks one. *)
Definition print_head (u : url.URL) : string :=
  let path := escape_with keep_in_path (url.Path u) in
  let without_scheme :=
    (String.eqb (url.Scheme u) EmptyString && String.eqb (url.Host u) EmptyString)%bool in
  (if String.eqb (url.Scheme u) EmptyString then EmptyString else url.Scheme u +:+ ":")
  +:+ (if without_scheme then
         (if url.Contains ":" (fst (url.Cut "/" path)) then "./" else EmptyString)
       else
         (if (String.eqb (url.Host u) EmptyString
              && String.eqb (url.Path u) EmptyString)%bool then EmptyString else "//")
         +:+ escape_with keep_in_host (url.Host u)
         +:+ (if (negb (String.eqb path EmptyString) && negb (String.prefix "/" path)
                  && negb (String.eqb (url.Host u) EmptyString))%bool
              then "/" else EmptyString))
  +:+ path.

Definition is_token (c : ascii) : bool :=
  (url.alnum c || url.Contains c "!#$%&'*+-.^_`|~")%bool.

(** A method is accepted when it is made of token characters, a URL text
    when it reads back. *)
#[export] Instance net : url.Net :=
  {| url.ParseRequestURI := parse_url;
     url.head := print_head;
     url.NewRequest_ok := fun method target =>
       (forallb is_token (list_ascii_of_string method)
        && match parse_url target with Some _ => true | None => false end)%bool |}.

(** A transport that answers every request with one response. *)
Definition canned (status : Z) (body : string) : client.Transport :=
  fun _ => (Some {| client.StatusCode := status; client.Body := body |}, None).

(** A transport that fails: a nil response and an error. *)
Definition refused : client.Transport :=
  fun _ => (None, Some "dial tcp: connection refused").

(** The inputs of the examples: the key and the instant are those of the
    exchange's documentation of signed requests. *)

Definition secret : string :=
  "NhqPtmdSJYdKjVHjA7PZj4Mge3R5YNiP1e3UZjInClVN65XAbvqqM6A7H5fATj0j".

Definition illegal_characters : string :=
  "{" +:+ quote +:+ "code" +:+ quote +:+ ":-1100," +:+ quote +:+ "msg" +:+ quote +:+ ":"
  +:+ quote +:+ "Illegal characters" +:+ quote +:+ "}".

Definition api : client.API :=
  client.New "https://api.binance.com" "key" secret (Some (canned 400 illegal_characters)) "agent".

Definition base : url.URL := url.mkURL "https" "api.binance.com" EmptyString false EmptyString.

Definition unreachable : client.API :=
  client.New "https://api.binance.com" "key" secret (Some refused) "agent".

Definition order : @fmt.Params dynamic :=
  <["symbol" := DString "LTCBTC"]> (<["side" := DString "BUY"]> ∅).

(** 2017-07-12 02:41:59.559 UTC *)
Definition instant : time.Time := 1499827319559000000.
Definition garbled : client.API :=
  client.New "https://api.binance.com" "key" secret (Some (canned 400 "not json")) "agent".

Definition with_own_query : client.API :=
  client.New "https://api.binance.com/api?x=1" "key" secret
    (Some (canned 400 illegal_characters)) "agent".

Definition own_query_base : url.URL := url.mkURL "https" "api.binance.com" "/api" false "x=1".

Definition manual : client.API :=
  {| client.URL := "https://api.binance.com"; client.Key := "key";
     client.SecretKey := secret; client.HTTPClient := None;
     client.UserAgent := "agent"; client.AutoReconnect := false |}.

(** A message whose event time is a string. *)
Definition mistyped : string :=
  "{" +:+ quote +:+ "e" +:+ quote +:+ ":" +:+ quote +:+ "depthUpdate" +:+ quote +:+ ","
  +:+ quote +:+ "E" +:+ quote +:+ ":" +:+ quote +:+ "soon" +:+ quote +:+ "}".

Definition read_error : client.Input := client.ReadError "EOF" None None.

End Reference.

(** ** Observers of runs *)

Module trace.

(** The connections that a run closes, in order. *)
Fixpoint closes {H} (acts : list (client.Action H)) : list nat :=
  match acts with
  | [] => []
  | client.Close c :: r => c :: closes r
  | _ :: r => closes r
  end.

(** The messages among the transport's answers, in order. *)
Fixpoint messages (inputs : list client.Input) : list string :=
  match inputs with
  | [] => []
  | client.Message m :: r => m :: messages r
  | client.ReadError _ _ _ :: r => messages r
  end.

(** The number of times a call closes the response body. *)
Fixpoint body_closes {T} (evs : list (client.Event T)) : nat :=
  match evs with
  | [] => 0
  | client.BodyClose :: r => S (body_closes r)
  | _ :: r => body_closes r
  end.

(** The values that a call writes to the caller's output. *)
Fixpoint outputs {T} (evs : list (client.Event T)) : list T :=
  match evs with
  | [] => []
  | client.Decoded o :: r => o :: outputs r
  | _ :: r => outputs r
  end.

(** The requests that a call hands to the transport. *)
Fixpoint sent {T} (evs : list (client.Event T)) : list client.HTTPRequest :=
  match evs with
  | [] => []
  | client.Do req :: r => req :: sent r
  | _ :: r => sent r
  end.

(** The digits of [hex.hextable]. *)
Definition lower_hex (c : ascii) : bool :=
  (url.in_range "0" "9" c || url.in_range "a" "f" c)%bool.

(** The characters of an encoded query: the unreserved ones, the escapes and
    the two separators. *)
Definition query_char (c : ascii) : bool :=
  (negb (url.shouldEscape c) || Ascii.eqb c "%" || Ascii.eqb c "+"
   || Ascii.eqb c "=" || Ascii.eqb c "&")%bool.

(** The upper-case letters of ASCII. *)
Definition upper (c : ascii) : bool := url.in_range "A" "Z" c.

Fixpoint all_chars (p : ascii -> bool) (s : string) : bool :=
  match s with
  | EmptyString => true
  | String c r => (p c && all_chars p r)%bool
  end.

(** What the transport answers to the call on the resolved URL [u], when
    the request is built and the client is set. *)
Definition answer `{url.Net} (a : client.API) (method : string) (u : url.URL)
    : option (option client.Response * option string) :=
  if url.NewRequest_ok method (url.String_ u) then
    match client.HTTPClient a with
    | Some do => Some (do (client.NewRequest a method u))
    | None => None
    end
  else None.

End trace.

(** ** More inputs for the examples *)

Module Samples.
Import Reference.

(** A body that decodes into a [StreamEvent]. *)
Definition ping : string :=
  "{" +:+ quote +:+ "e" +:+ quote +:+ ":" +:+ quote +:+ "ping" +:+ quote +:+ ","
  +:+ quote +:+ "E" +:+ quote +:+ ":7}".

Definition healthy : client.API :=
  client.New "https://api.binance.com" "key" secret (Some (canned 200 ping)) "agent".

Definition healthy_garbled : client.API :=
  client.New "https://api.binance.com" "key" secret (Some (canned 200 "not json")) "agent".

Definition misconfigured : client.API :=
  client.New "not a url" "key" secret (Some (canned 200 ping)) "agent".

Definition no_params : @fmt.Params dynamic := ∅.

Definition timed_order : @fmt.Params dynamic :=
  <["timestamp" := DString "1"]> order.

Definition spaced_order : @fmt.Params dynamic :=
  <["note" := DString "a b&c=d#e?f"]> order.

(** The GET request of the examples and its URL. *)
Definition depth_request : client.HTTPRequest :=
  {| client.Method := "GET";
     client.Target := "https://api.binance.com/api/v1/depth?side=BUY&symbol=LTCBTC";
     client.Header :=
       <["Useragent" := ["agent"]]>
         (<["X-Mbx-Apikey" := ["key"]]> (<["Content-Type" := ["application/json"]]> ∅)) |}.

Definition depth_url : url.URL :=
  url.mkURL "https" "api.binance.com" "/api/v1/depth" false "side=BUY&symbol=LTCBTC".

(** The signed request of the examples, its URL and the query that a base
    URL with a query of its own gives. *)
Definition signed_query : string :=
  "side=BUY&symbol=LTCBTC&timestamp=1499827319000&signature=1b3b4bce4783f5045ddbd4b5b260c77ffb3a5eec45b654f4a3dd2fb7dd26dee1".

Definition signed_url : url.URL :=
  url.mkURL "https" "api.binance.com" "/api/v3/order" false signed_query.

Definition signed_target : string :=
  "https://api.binance.com/api/v3/order?" +:+ signed_query.

Definition own_query_signed_text : string :=
  "side=BUY&symbol=LTCBTC&timestamp=1499827319000&x=1".

Definition ping_url : url.URL :=
  url.mkURL "https" "api.binance.com" "/api/v1/ping" false EmptyString.

Definition failed_redial : client.Input := client.ReadError "EOF" None (Some "refused").

End Samples.

(** * Facts *)

(** ** Query escaping round trip *)

Module url_facts.
Import url.

Lemma append_String (c : ascii) (a b : string) : String c a +:+ b = String c (a +:+ b).
Proof. reflexivity. Qed.

Lemma append_assoc (a b c : string) : (a +:+ b) +:+ c = a +:+ (b +:+ c).
Proof. induction a as [|x a IH]; [reflexivity | now rewrite !append_String, IH]. Qed.

Lemma QueryEscape_cons (c : ascii) (s : string) :
  QueryEscape (String c s) = QueryEscape (String c EmptyString) +:+ QueryEscape s.
Proof.
  simpl. destruct (shouldEscape c); [destruct (Ascii.eqb c " ")|]; reflexivity.
Qed.

Lemma QueryUnescape_byte (c : ascii) (r : string) :
  QueryUnescape (QueryEscape (String c EmptyString) +:+ r)
  = option_map (String c) (QueryUnescape r).
Proof. destruct c as [[] [] [] [] [] [] [] []]; reflexivity. Qed.

Lemma QueryUnescape_app (s r : string) :
  QueryUnescape (QueryEscape s +:+ r)
  = option_map (append s) (QueryUnescape r).
Proof.
  induction s as [|c s IH].
  - change (QueryEscape EmptyString +:+ r) with r.
    now destruct (QueryUnescape r).
  - rewrite QueryEscape_cons, append_assoc, QueryUnescape_byte, IH.
    now destruct (QueryUnescape r).
Qed.

Lemma append_empty_r (s : string) : s +:+ EmptyString = s.
Proof. induction s as [|c s IH]; [reflexivity | now rewrite append_String, IH]. Qed.

Lemma QueryUnescape_QueryEscape (s : string) : QueryUnescape (QueryEscape s) = Some s.
Proof.
  rewrite <- (append_empty_r (QueryEscape s)), QueryUnescape_app. simpl.
  now rewrite append_empty_r.
Qed.

Lemma Contains_app (x : ascii) (a b : string) :
  Contains x (a +:+ b) = (Contains x a || Contains x b)%bool.
Proof.
  induction a as [|c a IH]; [reflexivity|].
  rewrite append_String. simpl. rewrite IH. now rewrite orb_assoc.
Qed.

(** The characters that structure a query never come out of [QueryEscape]. *)
Lemma Contains_escaped_byte (x c : ascii) :
  structural x -> Contains x (QueryEscape (String c EmptyString)) = false.
Proof.
  intros [-> | [-> | ->]]; destruct c as [[] [] [] [] [] [] [] []]; reflexivity.
Qed.

Lemma Contains_QueryEscape (x : ascii) (s : string) :
  structural x -> Contains x (QueryEscape s) = false.
Proof.
  intros Hx. induction s as [|c s IH]; [reflexivity|].
  rewrite QueryEscape_cons, Contains_app, IH, Contains_escaped_byte by assumption.
  reflexivity.
Qed.

Lemma Cut_app (sep : ascii) (a b : string) :
  Contains sep a = false -> Cut sep (a +:+ String sep b) = (a, b).
Proof.
  induction a as [|c a IH].
  - intros _. change (EmptyString +:+ String sep b) with (String sep b).
    simpl. now rewrite Ascii.eqb_refl.
  - intros Hc. simpl in Hc. apply orb_false_iff in Hc as [Hc Ha].
    rewrite append_String. simpl. rewrite Hc, (IH Ha). reflexivity.
Qed.

Lemma Split_plain (sep : ascii) (a : string) :
  Contains sep a = false -> Split sep a = [a].
Proof.
  induction a as [|c a IH]; simpl; [reflexivity|].
  intros Hc. apply orb_false_iff in Hc as [Hc Ha]. now rewrite Hc, (IH Ha).
Qed.

Lemma Split_app (sep : ascii) (a b : string) :
  Contains sep a = false -> Split sep (a +:+ String sep b) = a :: Split sep b.
Proof.
  induction a as [|c a IH].
  - intros _. change (EmptyString +:+ String sep b) with (String sep b).
    simpl. now rewrite Ascii.eqb_refl.
  - intros Hc. simpl in Hc. apply orb_false_iff in Hc as [Hc Ha].
    rewrite append_String. simpl. now rewrite Hc, (IH Ha).
Qed.

(** [Split] undoes [Join] on segments free of the separator, the empty list
    being read back as one empty segment. *)
Lemma Split_Join (sep : ascii) (x : string) (l : list string) :
  Forall (fun s => Contains sep s = false) (x :: l) ->
  Split sep (Join (String sep EmptyString) (x :: l)) = x :: l.
Proof.
  revert x. induction l as [|y l IH]; intros x Hall.
  - simpl. apply Split_plain. now inversion Hall.
  - inversion Hall as [|? ? Hx Hrest]; subst.
    change (Join (String sep EmptyString) (x :: y :: l))
      with (x +:+ String sep EmptyString +:+ Join (String sep EmptyString) (y :: l)).
    change (String sep EmptyString +:+ Join (String sep EmptyString) (y :: l))
      with (String sep (Join (String sep EmptyString) (y :: l))).
    rewrite (Split_app _ _ _ Hx), (IH y Hrest). reflexivity.
Qed.


(** ** Parsing an encoded query *)

Lemma populated_empty : populated ∅.
Proof. intros k vs. rewrite lookup_empty. discriminate. Qed.

Lemma populated_Set_ (v : Values) (k x : string) : populated v -> populated (Set_ v k x).
Proof.
  intros Hv k' vs. unfold Set_. rewrite lookup_insert. case_decide.
  - intros [= <-]. discriminate.
  - apply Hv.
Qed.

Lemma populated_Add (v : Values) (k x : string) : populated v -> populated (Add v k x).
Proof.
  intros Hv k' vs. unfold Add. rewrite lookup_insert. case_decide.
  - intros [= <-]. now destruct (default [] (v !! k)).
  - apply Hv.
Qed.

Lemma populated_parse_segment (v : Values) (seg : string) :
  populated v -> populated (parse_segment v seg).
Proof.
  intros Hv. unfold parse_segment.
  destruct (Contains ";" seg); [assumption|].
  destruct (String.eqb seg EmptyString); [assumption|].
  destruct (Cut "=" seg) as [k x].
  destruct (QueryUnescape k); [|assumption].
  destruct (QueryUnescape x); [|assumption].
  now apply populated_Add.
Qed.

Lemma populated_fold (segs : list string) (v : Values) :
  populated v -> populated (fold_left parse_segment segs v).
Proof.
  revert v. induction segs as [|s segs IH]; intros v Hv; simpl; [assumption|].
  apply IH. now apply populated_parse_segment.
Qed.

Lemma populated_ParseQuery (query : string) : populated (ParseQuery query).
Proof. apply populated_fold, populated_empty. Qed.

Lemma pair_text_plain (x : ascii) (k v : string) :
  structural x -> x <> "="%char -> Contains x (pair_text k v) = false.
Proof.
  intros Hx Hne. unfold pair_text.
  rewrite !Contains_app, !Contains_QueryEscape by assumption.
  change (Contains x "=") with (Ascii.eqb "=" x || false)%bool.
  destruct (Ascii.eqb_spec "=" x) as [E|_]; [now symmetry in E|reflexivity].
Qed.

(** A segment written by [Encode] is read back as the [Add] of its pair. *)
Lemma parse_segment_pair_text (m : Values) (k v : string) :
  parse_segment m (pair_text k v) = Add m k v.
Proof.
  unfold parse_segment.
  rewrite (pair_text_plain ";" k v) by (unfold structural; auto || discriminate).
  unfold pair_text at 1.
  replace (String.eqb (QueryEscape k +:+ "=" +:+ QueryEscape v) EmptyString) with false.
  2:{ symmetry. apply String.eqb_neq. intros E.
      apply (f_equal (Contains "=")) in E. rewrite !Contains_app in E.
      simpl in E. rewrite orb_true_r in E. discriminate. }
  unfold pair_text.
  change ("=" +:+ QueryEscape v) with (String "=" (QueryEscape v)).
  rewrite Cut_app by (apply Contains_QueryEscape; unfold structural; auto).
  now rewrite !QueryUnescape_QueryEscape.
Qed.

Lemma fold_parse_pairs (k : string) (vs : list string) (m : Values) :
  fold_left parse_segment (map (pair_text k) vs) m = add_all k m vs.
Proof.
  unfold add_all. revert m. induction vs as [|v vs IH]; intros m; simpl; [reflexivity|].
  now rewrite parse_segment_pair_text, IH.
Qed.

Lemma fold_parse_flat (source : Values) (ks : list string) (m : Values) :
  fold_left parse_segment
    (flat_map (fun k => map (pair_text k) (default [] (source !! k))) ks) m
  = fold_left (fun m k => add_all k m (default [] (source !! k))) ks m.
Proof.
  revert m. induction ks as [|k ks IH]; intros m; simpl; [reflexivity|].
  now rewrite fold_left_app, fold_parse_pairs, IH.
Qed.

Lemma add_all_other (k j : string) (vs : list string) (m : Values) :
  k <> j -> add_all k m vs !! j = m !! j.
Proof.
  intros Hne. unfold add_all. revert m.
  induction vs as [|v vs IH]; intros m; simpl; [reflexivity|].
  rewrite IH. unfold Add. now rewrite lookup_insert_ne.
Qed.

Lemma add_all_same (k : string) (vs : list string) (m : Values) :
  vs <> [] -> add_all k m vs !! k = Some (default [] (m !! k) ++ vs).
Proof.
  unfold add_all. revert m. induction vs as [|v vs IH]; intros m Hne; [congruence|].
  simpl. destruct vs as [|w vs].
  - simpl. unfold Add. now rewrite lookup_insert_eq.
  - rewrite IH by discriminate. unfold Add at 1. rewrite lookup_insert_eq. simpl.
    now rewrite <- app_assoc.
Qed.

(** Adding, key by key, the values that [source] holds for distinct keys
    rebuilds the entries of [source] at these keys and leaves the others. *)
Lemma fold_add_all_lookup (source : Values) (ks : list string) (m : Values) (j : string) :
  populated source -> NoDup ks ->
  (forall k, k ∈ ks -> m !! k = None) ->
  (forall k, k ∈ ks -> is_Some (source !! k)) ->
  fold_left (fun m k => add_all k m (default [] (source !! k))) ks m !! j
  = if decide (j ∈ ks) then source !! j else m !! j.
Proof.
  intros Hpop. revert m. induction ks as [|k ks IH]; intros m Hnd Hfresh Hin;
    cbn [fold_left].
  - case_decide as Hj; [|reflexivity]. now apply elem_of_nil in Hj.
  - apply NoDup_cons in Hnd as [Hk Hnd].
    destruct (Hin k ltac:(left)) as [vs Hvs].
    assert (Hfresh' : forall k', k' ∈ ks ->
              add_all k m (default [] (source !! k)) !! k' = None).
    { intros k' Hk'. rewrite add_all_other.
      - apply Hfresh. now right.
      - intros ->. contradiction. }
    assert (Hin' : forall k', k' ∈ ks -> is_Some (source !! k')).
    { intros k' Hk'. apply Hin. now right. }
    rewrite (IH _ Hnd Hfresh' Hin').
    case_decide as Hj1; case_decide as Hj2; try reflexivity.
    + exfalso. apply Hj2. now right.
    + apply elem_of_cons in Hj2 as [-> | Hj2]; [|contradiction].
      rewrite Hvs. simpl. rewrite add_all_same by (eapply Hpop; eassumption).
      rewrite (Hfresh k) by left. reflexivity.
    + rewrite add_all_other; [reflexivity|].
      intros ->. apply Hj2. left.
Qed.

Lemma sorted_keys_perm (v : Values) : sorted_keys v ≡ₚ (map_to_list v).*1.
Proof. unfold sorted_keys. apply merge_sort_Permutation. Qed.

Lemma elem_of_sorted_keys (v : Values) (k : string) :
  k ∈ sorted_keys v <-> is_Some (v !! k).
Proof.
  rewrite sorted_keys_perm, list_elem_of_fmap. split.
  - intros [[k' vs] [-> Hin]]. apply elem_of_map_to_list in Hin. simpl. eauto.
  - intros [vs Hvs]. exists (k, vs). split; [reflexivity|]. now apply elem_of_map_to_list.
Qed.

Lemma string_le_total : Total string_le.
Proof. intros a b. apply String.leb_total. Qed.

(** [Encode] writes the keys in byte-wise order. *)
Lemma sorted_keys_Sorted (v : Values) : Sorted string_le (sorted_keys v).
Proof. unfold sorted_keys. apply Sorted_merge_sort. exact string_le_total. Qed.

Lemma NoDup_sorted_keys (v : Values) : NoDup (sorted_keys v).
Proof. rewrite sorted_keys_perm. apply NoDup_fst_map_to_list. Qed.

(** Reading the text of any list of written pairs folds the pairs. *)
Lemma ParseQuery_Join (segs : list string) :
  Forall (fun s => Contains "&" s = false) segs ->
  ParseQuery (Join "&" segs) = fold_left parse_segment segs ∅.
Proof.
  intros Hall. unfold ParseQuery. destruct segs as [|x l]; [reflexivity|].
  now rewrite (Split_Join "&" x l Hall).
Qed.

(** [url.ParseQuery] undoes [Values.Encode]. *)
Theorem ParseQuery_Encode (v : Values) : populated v -> ParseQuery (Encode v) = v.
Proof.
  intros Hpop. unfold Encode. rewrite ParseQuery_Join.
  - rewrite fold_parse_flat. apply map_eq. intros j.
    rewrite fold_add_all_lookup.
    + case_decide as Hj; [reflexivity|].
      rewrite lookup_empty. symmetry. apply eq_None_not_Some.
      intros Hs. apply Hj. now apply elem_of_sorted_keys.
    + assumption.
    + apply NoDup_sorted_keys.
    + intros k _. apply lookup_empty.
    + intros k. apply elem_of_sorted_keys.
  - apply Forall_forall. intros seg Hin. apply list_elem_of_In in Hin.
    apply in_flat_map in Hin as [k [_ Hin]].
    apply in_map_iff in Hin as [x [<- _]].
    apply pair_text_plain; [unfold structural; auto | discriminate].
Qed.

End url_facts.

(** ** The signature text *)

Module hex_facts.

Lemma digit_plain (n : Z) : Ascii.eqb (hex.digit n) "&" = false.
Proof.
  unfold hex.digit. generalize (Z.to_nat n). intros k.
  do 16 (destruct k as [|k]; [reflexivity|]). reflexivity.
Qed.

Lemma EncodeToString_plain (src : list Z) :
  url.Contains "&" (hex.EncodeToString src) = false.
Proof.
  induction src as [|v src IH]; [reflexivity|].
  cbn [hex.EncodeToString url.Contains]. now rewrite !digit_plain, IH.
Qed.

End hex_facts.

Module split_facts.
Import url url_facts.

Lemma Split_nonempty (sep : ascii) (s : string) : Split sep s <> [].
Proof.
  destruct s as [|c s]; simpl; [discriminate|].
  destruct (Ascii.eqb c sep); [discriminate|].
  destruct (Split sep s); discriminate.
Qed.

(** Cutting at a separator cuts the list of segments. *)
Lemma Split_at (sep : ascii) (a b : string) :
  Split sep (a +:+ String sep b) = Split sep a ++ Split sep b.
Proof.
  induction a as [|c a IH].
  - change (EmptyString +:+ String sep b) with (String sep b).
    simpl. now rewrite Ascii.eqb_refl.
  - rewrite append_String. simpl. rewrite IH.
    destruct (Ascii.eqb c sep); [reflexivity|].
    pose proof (Split_nonempty sep a) as Hne.
    destruct (Split sep a); [contradiction | reflexivity].
Qed.

Lemma not_empty_app (a b : string) (c : ascii) :
  String.eqb (a +:+ String c b) EmptyString = false.
Proof. destruct a; reflexivity. Qed.

End split_facts.

(** ** Request Dispatcher *)

Module client_facts.
Import client url_facts split_facts.

Section Dispatcher.

Context `{NET : url.Net} `{DYN : fmt.Dynamic}.
Context {BE : json.Decodable binanceError}.
Context {T : Type} {DT : json.Decodable T}.

(** The [range] loop overrides the entries of the URL's own query. *)
Lemma set_all_union (q : url.Values) (m : gmap string fmt.Value) :
  set_all q m = stringified m ∪ q.
Proof.
  unfold set_all, stringified.
  apply (map_fold_weak_ind (fun r m => r = ((fun v => [fmt.Sprint v]) <$> m) ∪ q)).
  - now rewrite fmap_empty, (left_id_L ∅ (∪)).
  - intros k v m' r _ ->. unfold url.Set_.
    now rewrite fmap_insert, insert_union_l.
Qed.

Lemma set_all_lookup (q : url.Values) (m : gmap string fmt.Value) (k : string) :
  set_all q m !! k
  = match m !! k with
    | Some v => Some [fmt.Sprint v]
    | None => q !! k
    end.
Proof.
  rewrite set_all_union. unfold stringified.
  destruct (m !! k) as [v|] eqn:E.
  - apply lookup_union_Some_l. now rewrite lookup_fmap, E.
  - rewrite lookup_union_r; [reflexivity|]. now rewrite lookup_fmap, E.
Qed.

Lemma populated_set_all (q : url.Values) (m : gmap string fmt.Value) :
  url.populated q -> url.populated (set_all q m).
Proof.
  intros Hq k vs. rewrite set_all_lookup. destruct (m !! k).
  - intros [= <-]. discriminate.
  - apply Hq.
Qed.

Lemma populated_signed_Values (u : url.URL) (params : fmt.Params) (now : time.Time) :
  url.populated (signed_Values u params now).
Proof.
  unfold signed_Values. apply populated_Add, populated_set_all, populated_ParseQuery.
Qed.

Lemma exchange_Do (a : API) (method : string) (u : url.URL) (out : option T)
    (f : bool) (req : HTTPRequest) :
  In (Do req) (fst (exchange a method u out f)) -> req = NewRequest a method u.
Proof.
  unfold exchange.
  destruct (url.NewRequest_ok _ _); simpl; [|intuition discriminate].
  destruct (HTTPClient a) as [do|]; simpl; [|intuition discriminate].
  destruct (do _) as [[r|] err]; simpl; [|intuition congruence].
  destruct (negb _).
  - destruct (json.Decode _ _). simpl. intuition congruence.
  - destruct out as [o|]; [destruct (json.Decode _ _)|]; destruct f; simpl;
      intuition congruence.
Qed.

(** A nil response is dereferenced before the error is looked at. *)
Lemma exchange_nil_response (a : API) (method : string) (u : url.URL) (out : option T)
    (f : bool) (do : Transport) (err : option string) :
  url.NewRequest_ok method (url.String_ u) = true ->
  HTTPClient a = Some do ->
  do (NewRequest a method u) = (None, err) ->
  exchange a method u out f
  = ([LogPrintf (method +:+ " " +:+ url.String_ u); Do (NewRequest a method u)], Panic).
Proof. intros Hok Hc Hdo. unfold exchange. now rewrite Hok, Hc, Hdo. Qed.

Lemma response_Some (a : API) (method : string) (u : url.URL) (r : Response) :
  response a method u = Some r ->
  url.NewRequest_ok method (url.String_ u) = true /\
  exists do err, HTTPClient a = Some do /\ do (NewRequest a method u) = (Some r, err).
Proof.
  unfold response. destruct (url.NewRequest_ok _ _); [|discriminate].
  destruct (HTTPClient a) as [do|]; [|discriminate].
  destruct (do _) as [res err] eqn:E. simpl. intros ->. eauto.
Qed.

(** Any status but 200: the message of the decoded payload, as an error. *)
Lemma exchange_status (a : API) (method : string) (u : url.URL) (out : option T)
    (f : bool) (r : Response) :
  response a method u = Some r ->
  StatusCode r <> 200 ->
  snd (exchange a method u out f)
  = Return (Some (errorString (Msg (fst (json.Decode (Body r) json.zero))))).
Proof.
  intros Hr Hs. apply response_Some in Hr as [Hok (do & err & Hc & Hdo)].
  unfold exchange. rewrite Hok, Hc, Hdo. simpl.
  apply Z.eqb_neq in Hs. rewrite Hs. simpl.
  now destruct (json.Decode _ _).
Qed.

(** Status 200 and an output value: the decoder's error is the result. *)
Lemma exchange_decode (a : API) (method : string) (u : url.URL) (o : T)
    (f : bool) (r : Response) :
  response a method u = Some r ->
  StatusCode r = 200 ->
  snd (exchange a method u (Some o) f)
  = Return (option_map DecodeError (snd (json.Decode (Body r) o))).
Proof.
  intros Hr Hs. apply response_Some in Hr as [Hok (do & err & Hc & Hdo)].
  unfold exchange. rewrite Hok, Hc, Hdo, Hs. simpl.
  now destruct (json.Decode _ _).
Qed.

(** A call whose request is built and whose client is set logs, then hands
    the request to the transport. *)
Lemma exchange_sends (a : API) (method : string) (u : url.URL) (out : option T)
    (f : bool) (do : Transport) :
  url.NewRequest_ok method (url.String_ u) = true ->
  HTTPClient a = Some do ->
  exists rest,
    fst (exchange a method u out f)
    = LogPrintf (method +:+ " " +:+ url.String_ u) :: Do (NewRequest a method u) :: rest.
Proof.
  intros Hok Hc. unfold exchange. rewrite Hok, Hc. cbn [negb].
  destruct (do _) as [[r|] err]; cbn [fst]; [|now exists []].
  destruct (negb _).
  - destruct (json.Decode _ _). eexists. reflexivity.
  - destruct out as [o|]; [destruct (json.Decode _ _)|]; destruct f; eexists; reflexivity.
Qed.

(** C1, amended.  The query that [SignedRequest] sends is the encoded query
    of the parameters, laid over the base URL's own query, and the
    timestamp, then [&signature=] and the hex-encoded HMAC-SHA256 of exactly
    that encoded text under the secret key; the signature is the last of
    its ampersand-separated parameters.  When the request can be built and
    the client is set, the call logs and sends the request with this query;
    it sends no other. *)
Theorem C1_signature_covers_preceding_query (a : API) (method endpoint : string)
    (params : fmt.Params) (out : option T) (now : time.Time) (u0 : url.URL) :
  url.ParseRequestURI (URL a) = Some u0 ->
  let u := url.with_Path u0 (url.Path u0 +:+ endpoint) in
  let text := url.Encode (signed_Values u params now) in
  let signature :=
    hex.EncodeToString
      (hmac.Sum (Bytes.of_string (SecretKey a)) (Bytes.of_string text)) in
  let sent := text +:+ "&signature=" +:+ signature in
  let target := url.head (url.with_RawQuery u sent) +:+ "?" +:+ sent in
  SignedRequest_URL a endpoint params now = Some (url.with_RawQuery u sent)
  /\ url.Split "&" sent = url.Split "&" text ++ ["signature=" +:+ signature]
  /\ url.ParseQuery text
     = url.Add (stringified (fmt.Flatten params) ∪ url.Query u0) "timestamp" (timestamp now)
  /\ (forall req, In (Do req) (fst (SignedRequest a method endpoint params out now)) ->
      Target req = target)
  /\ (forall do,
        url.NewRequest_ok method target = true ->
        HTTPClient a = Some do ->
        exists rest,
          fst (SignedRequest a method endpoint params out now)
          = LogPrintf (method +:+ " " +:+ target)
              :: Do (NewRequest a method (url.with_RawQuery u sent)) :: rest
          /\ Target (NewRequest a method (url.with_RawQuery u sent)) = target
          /\ forall req, In (Do req) rest -> False).
Proof.
  intros Hparse u text signature sent target.
  assert (Hurl : SignedRequest_URL a endpoint params now = Some (url.with_RawQuery u sent)).
  { unfold SignedRequest_URL. now rewrite Hparse. }
  assert (Htarget : url.String_ (url.with_RawQuery u sent) = target).
  { unfold url.String_, target. cbn [url.RawQuery url.with_RawQuery].
    replace (String.eqb sent EmptyString) with false; [now rewrite orb_true_r|].
    symmetry. apply (not_empty_app text ("signature=" +:+ signature) "&"). }
  split; [exact Hurl|]. split; [|split; [|split]].
  - unfold sent. change ("&signature=" +:+ signature) with (String "&" ("signature=" +:+ signature)).
    rewrite Split_at. f_equal. apply Split_plain.
    rewrite Contains_app. unfold signature. now rewrite hex_facts.EncodeToString_plain.
  - unfold text. rewrite ParseQuery_Encode by apply populated_signed_Values.
    unfold signed_Values. now rewrite set_all_union.
  - intros req Hin. unfold SignedRequest in Hin. rewrite Hurl in Hin.
    apply exchange_Do in Hin. subst req. exact Htarget.
  - intros do Hok Hc. unfold SignedRequest. rewrite Hurl. rewrite <- Htarget in Hok.
    destruct (exchange_sends a method (url.with_RawQuery u sent) out true do Hok Hc)
      as [rest Hrest].
    exists rest. rewrite <- Htarget. split; [exact Hrest|]. split; [reflexivity|].
    intros req Hin.
    assert (Hnodup : forall f', fst (exchange a method (url.with_RawQuery u sent) out f')
                                = LogPrintf (method +:+ " " +:+ url.String_ (url.with_RawQuery u sent))
                                    :: Do (NewRequest a method (url.with_RawQuery u sent)) :: rest ->
                                False).
    { intros f'. unfold exchange. rewrite Hok, Hc. cbn [negb].
      destruct (do _) as [[r|] err]; cbn [fst].
      - destruct (negb _).
        + destruct (json.Decode _ _). intros [= <-]. cbn in Hin. intuition discriminate.
        + destruct out as [o|]; [destruct (json.Decode _ _)|]; destruct f';
            intros [= <-]; cbn in Hin; intuition discriminate.
      - intros [= <-]. destruct Hin. }
    exact (Hnodup true Hrest).
Qed.

(** C3.  When the transport fails and returns a nil response with its error,
    neither [Request] nor [SignedRequest] returns: [res.Body] is evaluated
    on the nil response and the call panics, the error unread. *)
Theorem C3_nil_response_panics (a : API) (method endpoint : string)
    (params : fmt.Params) (out : option T) (now : time.Time)
    (do : Transport) (err : string) :
  HTTPClient a = Some do ->
  (forall req, do req = (None, Some err)) ->
  (forall u, Request_URL a method endpoint params = Some u ->
             url.NewRequest_ok method (url.String_ u) = true ->
             snd (Request a method endpoint params out) = Panic)
  /\ (forall u, SignedRequest_URL a endpoint params now = Some u ->
                url.NewRequest_ok method (url.String_ u) = true ->
                snd (SignedRequest a method endpoint params out now) = Panic).
Proof.
  intros Hc Hdo. split; intros u Hu Hok.
  - unfold Request. rewrite Hu.
    now rewrite (exchange_nil_response a method u out false do (Some err) Hok Hc (Hdo _)).
  - unfold SignedRequest. rewrite Hu.
    now rewrite (exchange_nil_response a method u out true do (Some err) Hok Hc (Hdo _)).
Qed.

(** C4.  On a response whose status is not 200, [Request] and
    [SignedRequest] return an error made by [errors.New] whose message is the
    [msg] field decoded from the body. *)
Theorem C4_status_error_message (a : API) (method endpoint : string)
    (params : fmt.Params) (out : option T) (now : time.Time) (r : Response) :
  StatusCode r <> 200 ->
  let e := fst (json.Decode (Body r) (json.zero : binanceError)) in
  (forall u, Request_URL a method endpoint params = Some u ->
             response a method u = Some r ->
             exists err, snd (Request a method endpoint params out) = Return (Some err)
                         /\ Error err = Msg e)
  /\ (forall u, SignedRequest_URL a endpoint params now = Some u ->
                response a method u = Some r ->
                exists err, snd (SignedRequest a method endpoint params out now)
                            = Return (Some err)
                            /\ Error err = Msg e).
Proof.
  intros Hs e. split; intros u Hu Hr; exists (errorString (Msg e)); split;
    try reflexivity.
  - unfold Request. rewrite Hu. now apply exchange_status.
  - unfold SignedRequest. rewrite Hu. now apply exchange_status.
Qed.

(** C5.  On a status other than 200 the error of the decoder is dropped:
    when the body does not decode into the error shape, the call returns
    [errors.New] of the message field as the decoder left it, and not the
    decoder's error. *)
Theorem C5_error_shape_decode_error_dropped (a : API) (method endpoint : string)
    (params : fmt.Params) (out : option T) (now : time.Time) (r : Response)
    (e : binanceError) (derr : string) :
  StatusCode r <> 200 ->
  json.Decode (Body r) (json.zero : binanceError) = (e, Some derr) ->
  (forall u, Request_URL a method endpoint params = Some u ->
             response a method u = Some r ->
             snd (Request a method endpoint params out)
             = Return (Some (errorString (Msg e)))
             /\ snd (Request a method endpoint params out)
                <> Return (Some (DecodeError derr)))
  /\ (forall u, SignedRequest_URL a endpoint params now = Some u ->
                response a method u = Some r ->
                snd (SignedRequest a method endpoint params out now)
                = Return (Some (errorString (Msg e)))
                /\ snd (SignedRequest a method endpoint params out now)
                   <> Return (Some (DecodeError derr))).
Proof.
  intros Hs Hd. split; intros u Hu Hr.
  - unfold Request. rewrite Hu, (exchange_status a method u out false r Hr Hs), Hd.
    split; [reflexivity | discriminate].
  - unfold SignedRequest. rewrite Hu, (exchange_status a method u out true r Hr Hs), Hd.
    split; [reflexivity | discriminate].
Qed.

(** The other half of the failure condition holds: with status 200 and an
    output value, a body that does not decode yields the decoder's error. *)
Lemma output_shape_decode_error (a : API) (method endpoint : string)
    (params : fmt.Params) (o : T) (now : time.Time) (r : Response) :
  StatusCode r = 200 ->
  (forall u, Request_URL a method endpoint params = Some u ->
             response a method u = Some r ->
             snd (Request a method endpoint params (Some o))
             = Return (option_map DecodeError (snd (json.Decode (Body r) o))))
  /\ (forall u, SignedRequest_URL a endpoint params now = Some u ->
                response a method u = Some r ->
                snd (SignedRequest a method endpoint params (Some o) now)
                = Return (option_map DecodeError (snd (json.Decode (Body r) o)))).
Proof.
  intros Hs. split; intros u Hu Hr.
  - unfold Request. rewrite Hu. now apply exchange_decode.
  - unfold SignedRequest. rewrite Hu. now apply exchange_decode.
Qed.

Lemma wrap64_small (x : Z) : - 2 ^ 63 <= x < 2 ^ 63 -> wrap64 x = x.
Proof. intros Hx. unfold wrap64. rewrite Z.mod_small; lia. Qed.

Lemma seconds_of_millis (t : time.Time) : time.Unix t = time.UnixMilli t / 1000.
Proof.
  unfold time.Unix, time.UnixMilli. rewrite Z.div_div by lia. reflexivity.
Qed.

(** C6, amended.  For an instant that [UnixNano] can represent, the
    timestamp parameter is a thousand times the whole seconds since the
    epoch at call time: the millisecond count rounded down to the second.
    It is appended after any [timestamp] value already in the query. *)
Theorem C6_timestamp_whole_seconds (u : url.URL) (params : fmt.Params) (now : time.Time) :
  0 <= now < 2 ^ 63 ->
  timestamp now = fmt.FormatInt (1000 * time.Unix now)
  /\ 1000 * time.Unix now = time.UnixMilli now - time.UnixMilli now mod 1000
  /\ time.UnixMilli now - 999 <= 1000 * time.Unix now <= time.UnixMilli now
  /\ exists before, signed_Values u params now !! "timestamp"
                    = Some (before ++ [timestamp now]).
Proof.
  intros Hnow.
  assert (Hms : 0 <= time.UnixMilli now < 2 ^ 63).
  { unfold time.UnixMilli. split; [apply Z.div_pos; lia|].
    apply Z.div_lt_upper_bound; lia. }
  pose proof (Z.div_mod (time.UnixMilli now) 1000 ltac:(lia)) as Hdm.
  pose proof (Z.mod_pos_bound (time.UnixMilli now) 1000 ltac:(lia)) as Hmod.
  rewrite <- seconds_of_millis in Hdm.
  split; [|split; [|split]].
  - unfold timestamp. rewrite (Z.mul_comm (time.Unix now)), wrap64_small; [reflexivity|lia].
  - lia.
  - lia.
  - unfold signed_Values, url.Add. eexists. apply lookup_insert_eq.
Qed.

(** C8, amended.  The query of a GET [Request] reads back as the entries of
    the base URL's own query overridden by the parameter bag, each key of
    the bag with its one stringified value; when the base URL has no query
    it holds exactly the keys of the bag.  It is the query of the request
    sent. *)
Theorem C8_query_is_bag_over_base_query (a : API) (endpoint : string)
    (params : fmt.Params) (out : option T) (u0 : url.URL) :
  url.ParseRequestURI (URL a) = Some u0 ->
  exists u,
    Request_URL a "GET" endpoint params = Some u
    /\ url.ParseQuery (url.RawQuery u) = stringified (fmt.Flatten params) ∪ url.Query u0
    /\ (forall k, url.ParseQuery (url.RawQuery u) !! k
                  = match fmt.Flatten params !! k with
                    | Some v => Some [fmt.Sprint v]
                    | None => url.Query u0 !! k
                    end)
    /\ (url.Query u0 = ∅ ->
        url.ParseQuery (url.RawQuery u) = stringified (fmt.Flatten params))
    /\ (forall req, In (Do req) (fst (Request a "GET" endpoint params out)) ->
        Target req = url.String_ u).
Proof.
  intros Hparse. eexists. split.
  { unfold Request_URL. rewrite Hparse. simpl. reflexivity. }
  cbn [url.RawQuery url.with_RawQuery].
  assert (Hq : url.ParseQuery
                 (url.Encode (set_all (url.Query (url.with_Path u0 (url.Path u0 +:+ endpoint)))
                                      (fmt.Flatten params)))
               = stringified (fmt.Flatten params) ∪ url.Query u0).
  { rewrite ParseQuery_Encode by apply populated_set_all, populated_ParseQuery.
    apply set_all_union. }
  split; [exact Hq|]. split; [|split].
  - intros k. rewrite ParseQuery_Encode by apply populated_set_all, populated_ParseQuery.
    apply set_all_lookup.
  - intros He. rewrite Hq, He. apply (right_id_L ∅ (∪)).
  - intros req Hin. unfold Request, Request_URL in Hin. rewrite Hparse in Hin.
    simpl in Hin. apply exchange_Do in Hin. now subst req.
Qed.

End Dispatcher.

End client_facts.

(** ** Stream Subscriber *)

Module stream_facts.
Import client.

Section Subscriber.

Context {H : Type}.
Variables (a : API) (endpoint : string) (handler : string -> H).

Lemma dials_app (xs ys : list (Action H)) : dials (xs ++ ys) = dials xs + dials ys.
Proof.
  induction xs as [|x xs IH]; [reflexivity|].
  destruct x; cbn [app dials]; rewrite IH; lia.
Qed.

Lemma started_app (xs ys : list (Action H)) : started (xs ++ ys) = started xs ++ started ys.
Proof.
  induction xs as [|x xs IH]; [reflexivity|].
  destruct x; cbn [app started]; now rewrite IH.
Qed.

Lemma dials_connect (dial : option string) (fresh : nat) :
  dials (fst (connect (H:=H) endpoint dial fresh)) = 1.
Proof. destruct dial; reflexivity. Qed.

Lemma dials_closing (c : nat) (closeErr : option string) (rest : list (Action H)) :
  dials ((Close c :: match closeErr with
                     | Some e => [LogPrintln ("close: " +:+ e)]
                     | None => []
                     end) ++ rest) = dials rest.
Proof. destruct closeErr; reflexivity. Qed.

(** One turn: the counter grows by the number of dials of the turn, which
    is one when the loop reconnects and zero otherwise; it reconnects only
    with auto-reconnect on and the counter below the limit. *)
Lemma turn_spec (first : nat) (s : Session) (i : Input) :
  let '(acts, st) := turn a endpoint handler first s i in
  (dials acts = 0 \/
   dials acts = 1 /\ AutoReconnect a = true /\ reconnects s < ReconnectLimit)
  /\ match st with
     | Open s' => reconnects s' = reconnects s + dials acts
     | Closed => dials acts = 0
     | Exited => dials acts = 1
     end.
Proof.
  destruct i as [m | err closeErr redial]; cbn [turn].
  - cbn [dials]. split; [now left | lia].
  - destruct (AutoReconnect a) eqn:Ha; cbn [andb].
    + destruct (Z.ltb_spec (reconnects s) ReconnectLimit) as [Hlt|Hge].
      * destruct redial as [e|]; cbn [connect]; cbn [dials];
          rewrite dials_closing; cbn [dials reconnects]; split; auto; lia.
      * cbn [dials]. split; [now left | reflexivity].
    + cbn [dials]. split; [now left | reflexivity].
Qed.

(** The invariant of the loop: counter plus dials still to come never pass
    the limit, and an open session has counted each dial. *)
Lemma loop_spec (first : nat) (inputs : list Input) :
  forall s, 0 <= reconnects s <= ReconnectLimit ->
  let '(acts, st) := loop a endpoint handler first s inputs in
  reconnects s + dials acts <= ReconnectLimit
  /\ match st with
     | Open s' => reconnects s' = reconnects s + dials acts
     | _ => True
     end.
Proof.
  induction inputs as [|i rest IH]; intros s Hs; cbn [loop].
  - cbn [dials]. lia.
  - pose proof (turn_spec first s i) as Ht.
    destruct (turn a endpoint handler first s i) as [acts st].
    destruct Ht as [Hd Hst].
    destruct st as [s'| |].
    + assert (Hs' : 0 <= reconnects s' <= ReconnectLimit) by lia.
      specialize (IH s' Hs').
      destruct (loop a endpoint handler first s' rest) as [acts' st'].
      rewrite dials_app. destruct IH as [IH1 IH2]. split; [lia|].
      destruct st'; [lia | exact I | exact I].
    + split; [lia | exact I].
    + split; [lia | exact I].
Qed.

(** Without a dial error, the counter of an open session is the number of
    read errors it has met. *)
Lemma loop_read_errors (first : nat) (inputs : list Input) :
  forall s acts s',
  loop a endpoint handler first s inputs = (acts, Open s') ->
  reconnects s' = reconnects s + read_errors inputs.
Proof.
  induction inputs as [|i rest IH]; intros s acts s'; cbn [loop].
  - intros [= _ <-]. cbn [read_errors]. lia.
  - destruct i as [m | err closeErr redial]; cbn [turn read_errors].
    + destruct (loop a endpoint handler first s rest) as [acts' st'] eqn:E.
      intros [= _ ->]. apply (IH _ _ _ E).
    + destruct (AutoReconnect a && (reconnects s <? ReconnectLimit))%bool;
        [|discriminate].
      destruct redial as [e|]; cbn [connect]; [discriminate|].
      destruct (loop a endpoint handler first _ rest) as [acts' st'] eqn:E.
      intros [= _ ->]. rewrite (IH _ _ _ E). cbn [reconnects]. lia.
Qed.

(** The process exits only on a failed dial. *)
Lemma loop_not_Exited (first : nat) (inputs : list Input) :
  forallb redial_ok inputs = true ->
  forall s, snd (loop a endpoint handler first s inputs) <> Exited.
Proof.
  induction inputs as [|i rest IH]; intros Hok s; cbn [loop]; [discriminate|].
  cbn [forallb] in Hok. apply andb_true_iff in Hok as [Hi Hrest].
  specialize (IH Hrest).
  destruct i as [m | err closeErr redial]; cbn [turn].
  - specialize (IH s). destruct (loop a endpoint handler first s rest). exact IH.
  - destruct (AutoReconnect a && (reconnects s <? ReconnectLimit))%bool;
      [|discriminate].
    destruct redial as [e|]; [discriminate|]. cbn [connect].
    match goal with
    | |- context [loop a endpoint handler first ?s' rest] =>
        specialize (IH s'); destruct (loop a endpoint handler first s' rest)
    end.
    exact IH.
Qed.

(** C2.  The reconnect counter starts at 0; a turn of the loop leaves it or
    adds one to it, adding one exactly when it dials again, which it does
    only with the counter below 10; over any number of turns it has grown by
    the number of read errors met, successful reconnects included; no run
    dials more than the first time and ten times again; a read error met
    with the counter at 10 ends the loop, closed, whatever the transport
    answers next, so that a run that meets more than ten read errors, its
    dials succeeding, ends closed. *)
Theorem C2_reconnect_counter :
  (forall inputs, exists acts st,
     Stream a endpoint handler None inputs = (Dial ("wss://stream.binance.com:9443/ws/" +:+ endpoint) :: acts, st)
     /\ loop a endpoint handler 0%nat {| conn := 0%nat; reconnects := 0 |} inputs = (acts, st))
  /\ (forall first s i acts s',
        turn a endpoint handler first s i = (acts, Open s') ->
        reconnects s' = reconnects s + dials acts /\ 0 <= dials acts <= 1)
  /\ (forall first s i,
        0 < dials (fst (turn a endpoint handler first s i)) ->
        AutoReconnect a = true /\ reconnects s < ReconnectLimit)
  /\ (forall first s inputs acts s',
        loop a endpoint handler first s inputs = (acts, Open s') ->
        reconnects s' = reconnects s + read_errors inputs
        /\ reconnects s <= reconnects s')
  /\ (forall dial inputs,
        dials (fst (Stream a endpoint handler dial inputs)) <= 1 + ReconnectLimit)
  /\ (forall dial inputs acts s',
        Stream a endpoint handler dial inputs = (acts, Open s') ->
        reconnects s' = read_errors inputs
        /\ reconnects s' = dials acts - 1
        /\ 0 <= reconnects s' <= ReconnectLimit)
  /\ (forall first s err closeErr redial rest,
        reconnects s = ReconnectLimit ->
        loop a endpoint handler first s (ReadError err closeErr redial :: rest)
        = ([LogPrintln ("read: " +:+ err); Close first], Closed))
  /\ (forall inputs,
        forallb redial_ok inputs = true ->
        ReconnectLimit < read_errors inputs ->
        snd (Stream a endpoint handler None inputs) = Closed).
Proof.
  assert (Hcount : forall inputs acts s',
            Stream a endpoint handler None inputs = (acts, Open s') ->
            reconnects s' = read_errors inputs
            /\ reconnects s' = dials acts - 1
            /\ 0 <= reconnects s' <= ReconnectLimit).
  { intros inputs acts s'. unfold Stream. cbn [connect].
    pose proof (loop_spec 0%nat inputs {| conn := 0%nat; reconnects := 0 |}) as Hl.
    pose proof (loop_read_errors 0%nat inputs {| conn := 0%nat; reconnects := 0 |}) as Hr.
    destruct (loop a endpoint handler 0%nat _ inputs) as [acts' st].
    intros [= <- ->]. specialize (Hr _ _ eq_refl). cbn [reconnects] in *.
    cbn [app dials]. unfold ReconnectLimit in *.
    assert (0 <= dials acts').
    { clear. induction acts' as [|x xs IH]; [cbn; lia|]. destruct x; cbn [dials]; lia. }
    lia. }
  assert (Herrors : forall inputs, 0 <= read_errors inputs).
  { induction inputs as [|i rest IH]; [cbn; lia|]. destruct i; cbn [read_errors]; lia. }
  split; [|split; [|split; [|split; [|split; [|split; [|split]]]]]].
  - intros inputs. unfold Stream. cbn [connect].
    destruct (loop a endpoint handler 0%nat _ inputs) as [acts st]. eauto.
  - intros first s i acts s' Ht. pose proof (turn_spec first s i) as Hspec.
    rewrite Ht in Hspec. lia.
  - intros first s i Hpos. pose proof (turn_spec first s i) as Hspec.
    destruct (turn a endpoint handler first s i) as [acts st].
    cbn [fst] in Hpos. destruct Hspec as [[Hz | (_ & Ha & Hlt)] _]; [lia | auto].
  - intros first s inputs acts s' Hl.
    pose proof (loop_read_errors first inputs s acts s' Hl) as Hr.
    specialize (Herrors inputs). lia.
  - intros dial inputs. unfold Stream. destruct dial as [e|]; cbn [connect].
    + cbn [fst dials]. unfold ReconnectLimit. lia.
    + pose proof (loop_spec 0%nat inputs {| conn := 0%nat; reconnects := 0 |}) as Hl.
      destruct (loop a endpoint handler 0%nat _ inputs) as [acts st].
      cbn [fst app dials]. cbn [reconnects] in Hl. unfold ReconnectLimit in *. lia.
  - intros dial inputs acts s' Hrun. destruct dial as [e|].
    + unfold Stream in Hrun. cbn [connect] in Hrun. discriminate.
    + now apply Hcount.
  - intros first s err closeErr redial rest Hs. cbn [loop turn].
    rewrite Hs, Z.ltb_irrefl, andb_false_r. reflexivity.
  - intros inputs Hok Hmany.
    destruct (Stream a endpoint handler None inputs) as [acts st] eqn:Hrun.
    cbn [snd]. destruct st as [s'| |]; [|reflexivity|].
    + apply Hcount in Hrun. lia.
    + exfalso. unfold Stream in Hrun. cbn [connect] in Hrun.
      pose proof (loop_not_Exited 0%nat inputs Hok {| conn := 0%nat; reconnects := 0 |})
        as Hne.
      destruct (loop a endpoint handler 0%nat _ inputs) as [acts' st'].
      injection Hrun as _ ->. now apply Hne.
Qed.

(** C7.  With auto-reconnect off, the first read error ends the run: the
    messages read before it have each started the handler once, the loop
    logs the error, closes the first connection and returns; it has dialled
    once, at the start, and nothing the transport could answer afterwards
    starts a handler. *)
Theorem C7_no_reconnect_when_disabled (messages : list string)
    (err : string) (closeErr redial : option string) (rest : list Input) :
  AutoReconnect a = false ->
  Stream a endpoint handler None
    (map Message messages ++ ReadError err closeErr redial :: rest)
  = (Dial ("wss://stream.binance.com:9443/ws/" +:+ endpoint)
       :: map (fun m => Go (handler m)) messages
       ++ [LogPrintln ("read: " +:+ err); Close 0%nat],
     Closed).
Proof.
  intros Ha. unfold Stream. cbn [connect].
  assert (Hloop : forall s,
    loop a endpoint handler 0%nat s
      (map Message messages ++ ReadError err closeErr redial :: rest)
    = (map (fun m => Go (handler m)) messages
         ++ [LogPrintln ("read: " +:+ err); Close 0%nat], Closed)).
  { intros s. induction messages as [|m ms IH]; cbn [map app loop turn].
    - rewrite Ha. reflexivity.
    - rewrite IH. reflexivity. }
  rewrite Hloop. reflexivity.
Qed.

End Subscriber.

End stream_facts.

(** ** Depth and kline subscriptions *)

Module decoder_facts.
Import stream.

Section Decoders.

Context `{UNI : gostrings.Unicode}.
Context {DepthStream : Type} {DD : json.Decodable DepthStream}.
Context {KlineStream : Type} {KD : json.Decodable KlineStream}.

(** Every dial of a subscription goes to the one URL of its endpoint. *)
Lemma loop_Dial {H : Type} (a : client.API) (endpoint : string) (handler : string -> H)
    (first : nat) (inputs : list client.Input) (url : string) :
  forall s,
  In (client.Dial url) (fst (client.loop a endpoint handler first s inputs)) ->
  url = "wss://stream.binance.com:9443/ws/" +:+ endpoint.
Proof.
  induction inputs as [|i rest IH]; intros s; cbn [client.loop].
  - intros [].
  - destruct i as [m | err closeErr redial]; cbn [client.turn].
    + specialize (IH s).
      destruct (client.loop a endpoint handler first s rest) as [acts st].
      cbn [fst app] in *. intros [Hin | Hin]; [discriminate | auto].
    + destruct (client.AutoReconnect a && _)%bool.
      * destruct redial as [e|]; cbn [client.connect].
        -- cbn [fst]. destruct closeErr; cbn; intuition congruence.
        -- match goal with
           | |- context [client.loop a endpoint handler first ?s' rest] =>
               specialize (IH s');
               destruct (client.loop a endpoint handler first s' rest) as [acts st]
           end.
           cbn [fst] in *. rewrite in_app_iff.
           destruct closeErr; cbn; intuition congruence.
      * cbn. intuition congruence.
Qed.

Lemma Stream_Dial {H : Type} (a : client.API) (endpoint : string) (handler : string -> H)
    (dial : option string) (inputs : list client.Input) :
  hd_error (fst (client.Stream a endpoint handler dial inputs))
  = Some (client.Dial ("wss://stream.binance.com:9443/ws/" +:+ endpoint))
  /\ forall url, In (client.Dial url) (fst (client.Stream a endpoint handler dial inputs)) ->
                 url = "wss://stream.binance.com:9443/ws/" +:+ endpoint.
Proof.
  unfold client.Stream. destruct dial as [e|]; cbn [client.connect].
  - cbn. intuition congruence.
  - pose proof (loop_Dial a endpoint handler 0%nat inputs) as Hl.
    match goal with
    | |- context [client.loop a endpoint handler 0%nat ?s inputs] =>
        specialize (fun url => Hl url s);
        destruct (client.loop a endpoint handler 0%nat s inputs) as [acts st]
    end.
    cbn [fst app hd_error] in *. split; [reflexivity|].
    intros url [Hin | Hin]; [congruence | auto].
Qed.

Lemma ToLower_ASCII (s : string) :
  gostrings.isASCII s = true ->
  gostrings.ToLower s = gostrings.map_bytes gostrings.lower s.
Proof. intros Hs. unfold gostrings.ToLower. now rewrite Hs. Qed.

(** C9.  A depth subscription dials the topic made of the lower-cased symbol
    and [@depth], a kline subscription the topic made of the lower-cased
    symbol, [@kline_] and the interval, first and at every reconnect;
    [BTCUSDT] gives [btcusdt@depth] and, at interval [1m],
    [btcusdt@kline_1m]. *)
Theorem C9_subscription_topics (c : Client) (dp : DepthParams) (kp : KlineParams)
    (dial : option string) (inputs : list client.Input) :
  let depth_url :=
    "wss://stream.binance.com:9443/ws/" +:+ gostrings.ToLower (Symbol dp) +:+ "@depth" in
  let kline_url :=
    "wss://stream.binance.com:9443/ws/" +:+ gostrings.ToLower (KlineSymbol kp)
      +:+ "@kline_" +:+ Interval kp in
  (hd_error (fst (Depth (DepthStream:=DepthStream) c dp dial inputs))
     = Some (client.Dial depth_url)
   /\ forall url, In (client.Dial url) (fst (Depth (DepthStream:=DepthStream) c dp dial inputs)) ->
                  url = depth_url)
  /\ (hd_error (fst (Kline (KlineStream:=KlineStream) c kp dial inputs))
        = Some (client.Dial kline_url)
      /\ forall url, In (client.Dial url) (fst (Kline (KlineStream:=KlineStream) c kp dial inputs)) ->
                     url = kline_url)
  /\ Depth_endpoint {| Symbol := "BTCUSDT" |} = "btcusdt@depth"
  /\ Kline_endpoint {| KlineSymbol := "BTCUSDT"; Interval := "1m" |} = "btcusdt@kline_1m".
Proof.
  intros depth_url kline_url. split; [|split; [|split]].
  - apply Stream_Dial.
  - apply Stream_Dial.
  - unfold Depth_endpoint. cbn [Symbol]. now rewrite ToLower_ASCII.
  - unfold Kline_endpoint. cbn [KlineSymbol Interval]. now rewrite ToLower_ASCII.
Qed.

(** The handler runs that a subscription starts on messages alone. *)
Lemma Stream_messages {H : Type} (a : client.API) (endpoint : string)
    (handler : string -> H) (messages : list string) :
  client.started (fst (client.Stream a endpoint handler None (map client.Message messages)))
  = map handler messages.
Proof.
  unfold client.Stream. cbn [client.connect].
  generalize ({| client.conn := 0%nat; client.reconnects := 0 |}).
  intros s.
  assert (Hl : client.started
                 (fst (client.loop a endpoint handler 0%nat s (map client.Message messages)))
               = map handler messages).
  { induction messages as [|m ms IH]; [reflexivity|].
    cbn [map client.loop client.turn].
    destruct (client.loop a endpoint handler 0%nat s (map client.Message ms)) as [acts st].
    cbn [fst app client.started] in *. now rewrite IH. }
  destruct (client.loop a endpoint handler 0%nat s (map client.Message messages)).
  exact Hl.
Qed.

(** C10, amended.  Whether or not a message deserializes, the wrapper starts
    the typed handler exactly once, on the shape as [json.Unmarshal] left it
    from the zero value: the zero value itself whenever the failed call
    stored nothing.  The error takes no part in what the wrapper does, and a
    subscription starts one wrapper run per message. *)
Theorem C10_handler_invoked_once (S : Type) (D : json.Decodable S) (d : string) :
  wrap d = [Invoke (fst (json.Unmarshal d (json.zero : S)))]
  /\ (fst (json.Unmarshal d (json.zero : S)) = json.zero ->
      wrap d = [Invoke (json.zero : S)])
  /\ (forall (c : Client) (dp : DepthParams) (kp : KlineParams) (messages : list string),
        client.started (fst (Depth (DepthStream:=DepthStream) c dp None
                                   (map client.Message messages)))
        = map (fun m => [Invoke (fst (json.Unmarshal m json.zero))]) messages
        /\ client.started (fst (Kline (KlineStream:=KlineStream) c kp None
                                      (map client.Message messages)))
           = map (fun m => [Invoke (fst (json.Unmarshal m json.zero))]) messages).
Proof.
  assert (Hw : forall (S' : Type) (D' : json.Decodable S') (x : string),
             wrap x = [Invoke (fst (json.Unmarshal x (json.zero : S')))]).
  { intros S' D' x. unfold wrap. now destruct (json.Unmarshal x json.zero). }
  split; [apply Hw|]. split.
  - intros Hz. now rewrite Hw, Hz.
  - intros c dp kp messages. unfold Depth, Kline. rewrite !Stream_messages.
    split; apply map_ext; intros m; apply Hw.
Qed.

End Decoders.

End decoder_facts.

(** ** The theorems at concrete inputs, on the reference collaborators *)

Module examples.
Import Reference.

Example sha256_constants :
  length sha256.K = 64%nat
  /\ nth 0 sha256.K 0 = 0x428a2f98 /\ nth 63 sha256.K 0 = 0xc67178f2
  /\ nth 0 sha256.H0 0 = 0x6a09e667 /\ nth 7 sha256.H0 0 = 0x5be0cd19.
Proof. vm_compute. repeat split. Qed.

Example sha256_abc :
  hex.EncodeToString (sha256.Sum256 (Bytes.of_string "abc"))
  = "ba7816bf8f01cfea414140de5dae2223b00361a396177a9cb410ff61f20015ad".
Proof. vm_compute. reflexivity. Qed.

Example sha256_empty :
  hex.EncodeToString (sha256.Sum256 [])
  = "e3b0c44298fc1c149afbf4c8996fb92427ae41e4649b934ca495991b7852b855".
Proof. vm_compute. reflexivity. Qed.

Example hmac_short_key :
  hex.EncodeToString
    (hmac.Sum (Bytes.of_string "key")
       (Bytes.of_string "The quick brown fox jumps over the lazy dog"))
  = "f7bc83f430538424b13298e6aa6fb143ef4d59a14946175997479dbc2d1a3cd8".
Proof. vm_compute. reflexivity. Qed.

Example hmac_long_key :
  hex.EncodeToString (hmac.Sum (repeat 107 100) (repeat 120 200))
  = "e326f00ce14194bb85e2683fe9b1a78851753f77479303f94c2c3cd1998bdda3".
Proof. vm_compute. reflexivity. Qed.

Example hmac_exchange_documentation :
  hex.EncodeToString
    (hmac.Sum (Bytes.of_string secret)
       (Bytes.of_string "symbol=LTCBTC&side=BUY&type=LIMIT&timeInForce=GTC&quantity=1&price=0.1&recvWindow=5000&timestamp=1499827319559"))
  = "c8db56825ae71d6d79447849e617115f4a920fa2acdcab2b053c4b2838bd6b71".
Proof. vm_compute. reflexivity. Qed.

Example Encode_sorts_and_escapes :
  url.Encode (url.Add (url.Set_ (url.ParseQuery "x=1&b=2&x=3&&bad=%zz&a;b=1") "b" "a b&c=d")
                "timestamp" "1499827319000")
  = "b=a+b%26c%3Dd&timestamp=1499827319000&x=1&x=3".
Proof. vm_compute. reflexivity. Qed.

(** A base URL that carries a query of its own: the signed text holds its
    key [x], which is neither a parameter nor the timestamp. *)
Lemma C1_counterexample :
  client.SignedRequest_URL with_own_query "/v3/order" order instant
  = Some (url.mkURL "https" "api.binance.com" "/api/v3/order" false
            (Samples.own_query_signed_text
             +:+ "&signature=5589c494b6cf14e3ada63c3748c29862cae0a2ebd5db7fe0b0f06ad1ba1aa46a"))
  /\ url.ParseQuery Samples.own_query_signed_text !! "x" = Some ["1"]
  /\ fmt.Flatten order !! "x" = None
  /\ url.ParseQuery Samples.own_query_signed_text
     <> url.Add (client.stringified (fmt.Flatten order)) "timestamp"
               (client.timestamp instant).
Proof.
  split; [vm_compute; reflexivity|].
  split; [vm_compute; reflexivity|].
  split; [vm_compute; reflexivity|].
  intros Heq. apply (f_equal (fun m => m !! "x")) in Heq.
  vm_compute in Heq. discriminate.
Qed.

Lemma C1_witness :
  url.ParseRequestURI (client.URL api) = Some base
  /\ url.NewRequest_ok "POST" Samples.signed_target = true
  /\ client.HTTPClient api = Some (canned 400 illegal_characters)
  /\ exists rest,
       fst (client.SignedRequest (T:=StreamEvent) api "POST" "/api/v3/order" order None
              instant)
       = client.LogPrintf ("POST " +:+ Samples.signed_target)
           :: client.Do (client.NewRequest api "POST" Samples.signed_url) :: rest
       /\ client.Target (client.NewRequest api "POST" Samples.signed_url)
          = Samples.signed_target.
Proof.
  assert (Hbase : url.ParseRequestURI (client.URL api) = Some base) by reflexivity.
  assert (Hok : url.NewRequest_ok "POST" Samples.signed_target = true)
    by (vm_compute; reflexivity).
  assert (Hc : client.HTTPClient api = Some (canned 400 illegal_characters))
    by reflexivity.
  split; [exact Hbase|]. split; [exact Hok|]. split; [exact Hc|].
  destruct (client_facts.C1_signature_covers_preceding_query
              (T:=StreamEvent) api "POST" "/api/v3/order" order None instant base Hbase)
    as (_ & _ & _ & _ & Hsend).
  specialize (Hsend (canned 400 illegal_characters)).
  vm_compute in Hsend. destruct (Hsend eq_refl eq_refl) as (rest & Hrest & Htarget & _).
  exists rest. split.
  - vm_compute. exact Hrest.
  - vm_compute. exact Htarget.
Defined.

Lemma C3_witness :
  client.HTTPClient unreachable = Some refused
  /\ snd (client.Request (T:=StreamEvent) unreachable "GET" "/api/v1/depth" order None)
     = client.Panic
  /\ snd (client.SignedRequest (T:=StreamEvent) unreachable "POST" "/api/v3/order" order None instant)
     = client.Panic.
Proof.
  assert (Hclient : client.HTTPClient unreachable = Some refused) by reflexivity.
  assert (Hfails : forall req, refused req = (None, Some "dial tcp: connection refused"))
    by reflexivity.
  split; [exact Hclient|].
  destruct (client_facts.C3_nil_response_panics (T:=StreamEvent)
              unreachable "GET" "/api/v1/depth" order None instant refused
              "dial tcp: connection refused" Hclient Hfails) as [Hreq _].
  destruct (client_facts.C3_nil_response_panics (T:=StreamEvent)
              unreachable "POST" "/api/v3/order" order None instant refused
              "dial tcp: connection refused" Hclient Hfails) as [_ Hsig].
  split.
  - eapply Hreq; vm_compute; reflexivity.
  - eapply Hsig; vm_compute; reflexivity.
Defined.

Lemma C4_witness :
  client.StatusCode {| client.StatusCode := 400; client.Body := illegal_characters |} <> 200
  /\ (exists err,
        snd (client.Request (T:=StreamEvent) api "GET" "/api/v1/depth" order None)
        = client.Return (Some err)
        /\ client.Error err = "Illegal characters")
  /\ (exists err,
        snd (client.SignedRequest (T:=StreamEvent) api "POST" "/api/v3/order" order None instant)
        = client.Return (Some err)
        /\ client.Error err = "Illegal characters").
Proof.
  assert (Hstatus : client.StatusCode
                      {| client.StatusCode := 400; client.Body := illegal_characters |} <> 200)
    by (simpl; lia).
  split; [exact Hstatus|].
  destruct (client_facts.C4_status_error_message (T:=StreamEvent)
              api "GET" "/api/v1/depth" order None instant _ Hstatus) as [Hreq _].
  destruct (client_facts.C4_status_error_message (T:=StreamEvent)
              api "POST" "/api/v3/order" order None instant _ Hstatus) as [_ Hsig].
  split.
  - eapply Hreq; vm_compute; reflexivity.
  - eapply Hsig; vm_compute; reflexivity.
Defined.

Lemma C5_witness :
  json.Decode "not json" (json.zero : client.binanceError)
  = ({| client.Code := 0; client.Msg := EmptyString |}, Some "json: syntax error")
  /\ snd (client.Request (T:=StreamEvent) garbled "GET" "/api/v1/depth" order None)
     = client.Return (Some (client.errorString EmptyString))
  /\ snd (client.Request (T:=StreamEvent) garbled "GET" "/api/v1/depth" order None)
     <> client.Return (Some (client.DecodeError "json: syntax error")).
Proof.
  assert (Hstatus : client.StatusCode
                      {| client.StatusCode := 400; client.Body := "not json" |} <> 200)
    by (simpl; lia).
  assert (Hdecode : json.Decode "not json" (json.zero : client.binanceError)
                    = ({| client.Code := 0; client.Msg := EmptyString |},
                       Some "json: syntax error"))
    by (vm_compute; reflexivity).
  split; [exact Hdecode|].
  destruct (client_facts.C5_error_shape_decode_error_dropped (T:=StreamEvent)
              garbled "GET" "/api/v1/depth" order None instant _ _ _ Hstatus Hdecode)
    as [Hreq _].
  eapply Hreq; vm_compute; reflexivity.
Defined.

(** The timestamp of a call made 559 ms into a second is not the
    millisecond count of that instant. *)
Lemma C6_counterexample :
  client.timestamp instant = "1499827319000"
  /\ fmt.FormatInt (time.UnixMilli instant) = "1499827319559"
  /\ client.timestamp instant <> fmt.FormatInt (time.UnixMilli instant).
Proof. vm_compute. repeat split; discriminate. Qed.

Lemma C6_witness :
  0 <= instant < 2 ^ 63
  /\ client.timestamp instant = fmt.FormatInt (1000 * time.Unix instant).
Proof.
  assert (Hrange : 0 <= instant < 2 ^ 63) by (unfold instant; lia).
  split; [exact Hrange|].
  exact (proj1 (client_facts.C6_timestamp_whole_seconds base order instant Hrange)).
Defined.

(** A base URL that carries a query of its own: the GET query holds its key
    [x], which is no key of the parameter bag. *)
Lemma C8_counterexample :
  client.Request_URL with_own_query "GET" "/v1/depth" order
  = Some (url.mkURL "https" "api.binance.com" "/api/v1/depth" false
            "side=BUY&symbol=LTCBTC&x=1")
  /\ url.ParseQuery "side=BUY&symbol=LTCBTC&x=1" !! "x" = Some ["1"]
  /\ fmt.Flatten order !! "x" = None
  /\ url.ParseQuery "side=BUY&symbol=LTCBTC&x=1"
     <> client.stringified (fmt.Flatten order).
Proof.
  split; [vm_compute; reflexivity|].
  split; [vm_compute; reflexivity|].
  split; [vm_compute; reflexivity|].
  intros Heq. apply (f_equal (fun m => m !! "x")) in Heq.
  vm_compute in Heq. discriminate.
Qed.

Lemma C8_witness :
  url.ParseRequestURI (client.URL with_own_query) = Some own_query_base
  /\ exists u,
       client.Request_URL with_own_query "GET" "/v1/depth" order = Some u
       /\ url.ParseQuery (url.RawQuery u) !! "symbol" = Some ["LTCBTC"]
       /\ url.ParseQuery (url.RawQuery u) !! "x" = Some ["1"]
       /\ url.ParseQuery (url.RawQuery u) !! "y" = None.
Proof.
  assert (Hbase : url.ParseRequestURI (client.URL with_own_query) = Some own_query_base)
    by reflexivity.
  split; [exact Hbase|].
  destruct (client_facts.C8_query_is_bag_over_base_query (T:=StreamEvent)
              with_own_query "/v1/depth" order None own_query_base Hbase)
    as (u & Hu & _ & Hlookup & _).
  exists u. split; [exact Hu|].
  rewrite !Hlookup. vm_compute. repeat split.
Defined.

(** Three read errors, auto-reconnect on: three reconnects, and delivery
    resumes. *)
Example three_failures_then_delivery :
  client.Stream api "btcusdt@depth" (fun m => m) None
    [read_error; read_error; read_error; client.Message "a"; client.Message "b"]
  = ([client.Dial "wss://stream.binance.com:9443/ws/btcusdt@depth";
      client.LogPrintln "read: EOF"; client.Close 0%nat;
      client.Dial "wss://stream.binance.com:9443/ws/btcusdt@depth";
      client.LogPrintln "read: EOF"; client.Close 1%nat;
      client.Dial "wss://stream.binance.com:9443/ws/btcusdt@depth";
      client.LogPrintln "read: EOF"; client.Close 2%nat;
      client.Dial "wss://stream.binance.com:9443/ws/btcusdt@depth";
      client.Go "a"; client.Go "b"],
     client.Open {| client.conn := 3%nat; client.reconnects := 3 |}).
Proof. vm_compute. reflexivity. Qed.

(** Eleven read errors: ten reconnects, then the loop returns. *)
Lemma C2_witness :
  client.dials (fst (client.Stream api "btcusdt@depth" (fun m => m) None
                       (repeat read_error 11 ++ [client.Message "late"])))
  <= 1 + client.ReconnectLimit
  /\ client.Stream api "btcusdt@depth" (fun m => m) None
       (repeat read_error 10)
     = (fst (client.Stream api "btcusdt@depth" (fun m => m) None (repeat read_error 10)),
        client.Open {| client.conn := 10%nat; client.reconnects := 10 |})
  /\ client.loop api "btcusdt@depth" (fun m => m) 0%nat
       {| client.conn := 10%nat; client.reconnects := 10 |}
       [read_error; client.Message "late"]
     = ([client.LogPrintln "read: EOF"; client.Close 0%nat], client.Closed).
Proof.
  destruct (stream_facts.C2_reconnect_counter api "btcusdt@depth" (fun m : string => m))
    as (_ & _ & _ & _ & Hbound & _ & Hclosed & _).
  split; [apply Hbound|].
  split; [vm_compute; reflexivity|].
  apply Hclosed. reflexivity.
Defined.

Lemma C7_witness :
  client.AutoReconnect manual = false
  /\ client.Stream manual "btcusdt@depth" (fun m => m) None
       [client.Message "a"; client.Message "b"; read_error; client.Message "c"]
     = ([client.Dial "wss://stream.binance.com:9443/ws/btcusdt@depth";
         client.Go "a"; client.Go "b";
         client.LogPrintln "read: EOF"; client.Close 0%nat],
        client.Closed).
Proof.
  assert (Hoff : client.AutoReconnect manual = false) by reflexivity.
  split; [exact Hoff|].
  exact (stream_facts.C7_no_reconnect_when_disabled manual "btcusdt@depth"
           (fun m : string => m) ["a"; "b"] "EOF" None None [client.Message "c"] Hoff).
Defined.

Lemma C9_witness :
  hd_error (fst (stream.Depth (DepthStream:=StreamEvent) {| stream.API := api |}
                   {| stream.Symbol := "BTCUSDT" |} None []))
  = Some (client.Dial "wss://stream.binance.com:9443/ws/btcusdt@depth")
  /\ hd_error (fst (stream.Kline (KlineStream:=StreamEvent) {| stream.API := api |}
                      {| stream.KlineSymbol := "BTCUSDT"; stream.Interval := "1m" |} None []))
     = Some (client.Dial "wss://stream.binance.com:9443/ws/btcusdt@kline_1m").
Proof.
  destruct (decoder_facts.C9_subscription_topics
              (DepthStream:=StreamEvent) (KlineStream:=StreamEvent)
              {| stream.API := api |} {| stream.Symbol := "BTCUSDT" |}
              {| stream.KlineSymbol := "BTCUSDT"; stream.Interval := "1m" |} None [])
    as ((Hd & _) & (Hk & _) & _).
  split; [exact Hd | exact Hk].
Defined.

(** A message with a string where the event time should be: the decoder
    reports the mismatch and has stored the event type, so the handler is
    not started on the zero value. *)
Lemma C10_counterexample :
  snd (json.Unmarshal mistyped (json.zero : StreamEvent))
  = Some "json: cannot unmarshal value into Go struct field E"
  /\ stream.wrap mistyped
     = [stream.Invoke {| EventType := "depthUpdate"; EventTime := 0 |}]
  /\ stream.wrap mistyped <> [stream.Invoke (json.zero : StreamEvent)].
Proof. vm_compute. repeat split; discriminate. Qed.

Lemma C10_witness :
  fst (json.Unmarshal "not json" (json.zero : StreamEvent)) = json.zero
  /\ snd (json.Unmarshal "not json" (json.zero : StreamEvent)) = Some "json: syntax error"
  /\ stream.wrap "not json" = [stream.Invoke (json.zero : StreamEvent)].
Proof.
  assert (Hzero : fst (json.Unmarshal "not json" (json.zero : StreamEvent)) = json.zero)
    by reflexivity.
  split; [exact Hzero|]. split; [reflexivity|].
  destruct (decoder_facts.C10_handler_invoked_once
              (DepthStream:=StreamEvent) (KlineStream:=StreamEvent)
              StreamEvent StreamEvent_codec "not json") as (_ & Hw & _).
  exact (Hw Hzero).
Defined.

End examples.

(** ** More on the Request Dispatcher *)

Module dispatcher_more.
Import client client_facts.

Section Dispatcher.

Context `{NET : url.Net} `{DYN : fmt.Dynamic}.
Context {BE : json.Decodable binanceError}.
Context {T : Type} {DT : json.Decodable T}.

(** X1.  A [Request] whose method is not [GET] leaves the parameters out:
    its URL is the base URL with the endpoint appended to the path and the
    base URL's own query untouched, and the whole call is the same whatever
    the parameters. *)
Theorem Request_other_methods_ignore_params (a : API) (method endpoint : string)
    (params params' : fmt.Params) (out : option T) :
  method <> "GET" ->
  Request a method endpoint params out = Request a method endpoint params' out
  /\ forall u0, url.ParseRequestURI (URL a) = Some u0 ->
       Request_URL a method endpoint params
       = Some (url.with_Path u0 (url.Path u0 +:+ endpoint))
       /\ url.RawQuery (url.with_Path u0 (url.Path u0 +:+ endpoint)) = url.RawQuery u0.
Proof.
  intros Hm. apply String.eqb_neq in Hm.
  assert (Hurl : forall p, Request_URL a method endpoint p
                 = match url.ParseRequestURI (URL a) with
                   | Some u0 => Some (url.with_Path u0 (url.Path u0 +:+ endpoint))
                   | None => None
                   end).
  { intros p. unfold Request_URL. destruct (url.ParseRequestURI (URL a)); [|reflexivity].
    now rewrite Hm. }
  split.
  - unfold Request. now rewrite !Hurl.
  - intros u0 Hu0. rewrite Hurl, Hu0. split; reflexivity.
Qed.

(** The shape of the events of [exchange]. *)
Lemma exchange_events (a : API) (method : string) (u : url.URL) (out : option T)
    (f : bool) :
  let evs := fst (exchange a method u out f) in
  let line := method +:+ " " +:+ url.String_ u in
  evs = [LogPrintf line]
  \/ exists rest, evs = LogPrintf line :: Do (NewRequest a method u) :: rest
                  /\ trace.sent rest = [].
Proof.
  unfold exchange.
  destruct (url.NewRequest_ok _ _); cbn [negb]; [|now left].
  destruct (HTTPClient a) as [do|]; [|now left].
  destruct (do _) as [[r|] err]; cbn [fst]; [|right; now exists []].
  destruct (negb _).
  - destruct (json.Decode _ _). right. eexists. split; reflexivity.
  - destruct out as [o|]; [destruct (json.Decode _ _)|]; destruct f; right;
      eexists; split; reflexivity.
Qed.

(** X2.  Each call logs before it sends and sends at most once: the events of
    a call that hands a request to the transport begin with the log line
    made of the method, a space and the URL of that request, then the one
    request. *)
Theorem log_line_precedes_the_one_send (a : API) (method endpoint : string)
    (params : fmt.Params) (out : option T) (now : time.Time) (req : HTTPRequest) :
  (In (Do req) (fst (Request a method endpoint params out)) ->
   exists rest,
     fst (Request a method endpoint params out)
     = LogPrintf (method +:+ " " +:+ Target req) :: Do req :: rest
     /\ trace.sent rest = [])
  /\ (In (Do req) (fst (SignedRequest a method endpoint params out now)) ->
      exists rest,
        fst (SignedRequest a method endpoint params out now)
        = LogPrintf (method +:+ " " +:+ Target req) :: Do req :: rest
        /\ trace.sent rest = []).
Proof.
  assert (Hex : forall u f,
            In (Do req) (fst (exchange a method u out f)) ->
            exists rest,
              fst (exchange a method u out f)
              = LogPrintf (method +:+ " " +:+ Target req) :: Do req :: rest
              /\ trace.sent rest = []).
  { intros u f Hin. pose proof (exchange_Do a method u out f req Hin) as ->.
    destruct (exchange_events a method u out f) as [Hlog | (rest & Hevs & Hsent)].
    - rewrite Hlog in Hin. destruct Hin as [Hin | []]. discriminate.
    - exists rest. split; [exact Hevs | exact Hsent]. }
  split.
  - unfold Request. destruct (Request_URL a method endpoint params); [apply Hex|].
    intros [].
  - unfold SignedRequest. destruct (SignedRequest_URL a endpoint params now); [apply Hex|].
    intros [].
Qed.

(** The three [Header.Add] leave three keys, in canonical form. *)
Lemma NewRequest_Header (a : API) (method : string) (u : url.URL) :
  Header (NewRequest a method u)
  = <["Useragent" := [UserAgent a]]>
      (<["X-Mbx-Apikey" := [Key a]]> (<["Content-Type" := ["application/json"]]> ∅)).
Proof.
  cbn [Header NewRequest]. unfold http.Add.
  change (http.CanonicalMIMEHeaderKey "content-type") with "Content-Type".
  change (http.CanonicalMIMEHeaderKey "X-MBX-APIKEY") with "X-Mbx-Apikey".
  change (http.CanonicalMIMEHeaderKey "UserAgent") with "Useragent".
  rewrite lookup_empty. rewrite !lookup_insert_ne by discriminate.
  rewrite lookup_empty. reflexivity.
Qed.

(** X3.  Every request sent carries three header fields and no other, under
    the canonical names that [Header.Add] gives the names written in the
    source: [Content-Type] with [application/json], [X-Mbx-Apikey] with the
    configured key and [Useragent] with the configured user agent, each
    with that one value; the names as written are not keys of the header.
    Its method is the method of the call, [GET] standing in for an empty
    one. *)
Theorem sent_request_headers (a : API) (method endpoint : string)
    (params : fmt.Params) (out : option T) (now : time.Time) (req : HTTPRequest) :
  In (Do req) (fst (Request a method endpoint params out))
  \/ In (Do req) (fst (SignedRequest a method endpoint params out now)) ->
  Header req
  = <["Useragent" := [UserAgent a]]>
      (<["X-Mbx-Apikey" := [Key a]]> (<["Content-Type" := ["application/json"]]> ∅))
  /\ (Header req !! "content-type" = None
      /\ Header req !! "X-MBX-APIKEY" = None
      /\ Header req !! "UserAgent" = None
      /\ Header req !! "User-Agent" = None)
  /\ Method req = (if String.eqb method EmptyString then "GET" else method).
Proof.
  intros Hin.
  assert (Hreq : exists u, req = NewRequest a method u).
  { destruct Hin as [Hin | Hin].
    - unfold Request in Hin.
      destruct (Request_URL a method endpoint params) as [u|]; [|destruct Hin].
      apply exchange_Do in Hin. eauto.
    - unfold SignedRequest in Hin.
      destruct (SignedRequest_URL a endpoint params now) as [u|]; [|destruct Hin].
      apply exchange_Do in Hin. eauto. }
  destruct Hreq as [u ->]. rewrite NewRequest_Header.
  split; [reflexivity|]. split; [|reflexivity].
  repeat split; rewrite !lookup_insert_ne by discriminate; apply lookup_empty.
Qed.

Lemma exchange_answer (a : API) (method : string) (u : url.URL) (out : option T)
    (f : bool) (r : Response) (err : option string) :
  trace.answer a method u = Some (Some r, err) ->
  exchange a method u out f
  = let line := method +:+ " " +:+ url.String_ u in
    let req := NewRequest a method u in
    if negb (StatusCode r =? 200) then
      ([LogPrintf line; Do req; BodyClose],
       Return (Some (errorString (Msg (fst (json.Decode (Body r) json.zero))))))
    else
      let closes := if f then [BodyClose; BodyClose] else [BodyClose] in
      match out with
      | Some o =>
          ([LogPrintf line; Do req; Decoded (fst (json.Decode (Body r) o))] ++ closes,
           Return (option_map DecodeError (snd (json.Decode (Body r) o))))
      | None => ([LogPrintf line; Do req] ++ closes, Return (option_map TransportError err))
      end.
Proof.
  unfold trace.answer, exchange.
  destruct (url.NewRequest_ok _ _); [|discriminate]. cbn [negb].
  destruct (HTTPClient a) as [do|]; [|discriminate].
  intros [= ->]. cbv zeta.
  destruct (negb _).
  - now destruct (json.Decode _ _).
  - destruct out as [o|]; [now destruct (json.Decode _ _) | reflexivity].
Qed.

Lemma response_answer (a : API) (method : string) (u : url.URL) :
  response a method u
  = match trace.answer a method u with
    | Some (res, _) => res
    | None => None
    end.
Proof.
  unfold response, trace.answer.
  destruct (url.NewRequest_ok _ _); [|reflexivity].
  destruct (HTTPClient a) as [do|]; [|reflexivity].
  now destruct (do _).
Qed.

(** X4.  On status 200 without an output value the body is not decoded: the
    call writes nothing and returns what the transport returned as its
    error, nil when there was none. *)
Theorem ok_without_output_returns_transport_error (a : API) (method endpoint : string)
    (params : fmt.Params) (now : time.Time) (r : Response) (err : option string) :
  StatusCode r = 200 ->
  (forall u, Request_URL a method endpoint params = Some u ->
             trace.answer a method u = Some (Some r, err) ->
             snd (Request a method endpoint params None)
             = Return (option_map TransportError err)
             /\ trace.outputs (fst (Request (T:=T) a method endpoint params None)) = [])
  /\ (forall u, SignedRequest_URL a endpoint params now = Some u ->
                trace.answer a method u = Some (Some r, err) ->
                snd (SignedRequest a method endpoint params None now)
                = Return (option_map TransportError err)
                /\ trace.outputs (fst (SignedRequest (T:=T) a method endpoint params None now))
                   = []).
Proof.
  intros Hs. split; intros u Hu Ha.
  - unfold Request. rewrite Hu, (exchange_answer _ _ _ _ _ _ _ Ha), Hs. split; reflexivity.
  - unfold SignedRequest. rewrite Hu, (exchange_answer _ _ _ _ _ _ _ Ha), Hs.
    split; reflexivity.
Qed.

(** X5.  On status 200 with an output value the call writes the decoded
    value once and returns the decoder's error, nil when the body decodes;
    an error that came with the response is overwritten. *)
Theorem ok_with_output_returns_decoder_error (a : API) (method endpoint : string)
    (params : fmt.Params) (o : T) (now : time.Time) (r : Response) (err : option string) :
  StatusCode r = 200 ->
  let o' := fst (json.Decode (Body r) o) in
  let derr := snd (json.Decode (Body r) o) in
  (forall u, Request_URL a method endpoint params = Some u ->
             trace.answer a method u = Some (Some r, err) ->
             snd (Request a method endpoint params (Some o))
             = Return (option_map DecodeError derr)
             /\ trace.outputs (fst (Request a method endpoint params (Some o))) = [o'])
  /\ (forall u, SignedRequest_URL a endpoint params now = Some u ->
                trace.answer a method u = Some (Some r, err) ->
                snd (SignedRequest a method endpoint params (Some o) now)
                = Return (option_map DecodeError derr)
                /\ trace.outputs (fst (SignedRequest a method endpoint params (Some o) now))
                   = [o']).
Proof.
  intros Hs o' derr. split; intros u Hu Ha.
  - unfold Request. rewrite Hu, (exchange_answer _ _ _ _ _ _ _ Ha), Hs. split; reflexivity.
  - unfold SignedRequest. rewrite Hu, (exchange_answer _ _ _ _ _ _ _ Ha), Hs.
    split; reflexivity.
Qed.

(** X6.  The response body is closed once by [Request] whatever the status,
    once by [SignedRequest] on a status other than 200 and twice by
    [SignedRequest] on status 200, where its second deferred close also
    runs. *)
Theorem body_closed_twice_by_signed_ok (a : API) (method endpoint : string)
    (params : fmt.Params) (out : option T) (now : time.Time)
    (r : Response) (err : option string) :
  (forall u, Request_URL a method endpoint params = Some u ->
             trace.answer a method u = Some (Some r, err) ->
             trace.body_closes (fst (Request a method endpoint params out)) = 1%nat)
  /\ (forall u, SignedRequest_URL a endpoint params now = Some u ->
                trace.answer a method u = Some (Some r, err) ->
                trace.body_closes (fst (SignedRequest a method endpoint params out now))
                = if StatusCode r =? 200 then 2%nat else 1%nat).
Proof.
  split; intros u Hu Ha.
  - unfold Request. rewrite Hu, (exchange_answer _ _ _ _ _ _ _ Ha). cbv zeta.
    destruct (StatusCode r =? 200); cbn [negb]; [|reflexivity].
    destruct out; reflexivity.
  - unfold SignedRequest. rewrite Hu, (exchange_answer _ _ _ _ _ _ _ Ha). cbv zeta.
    destruct (StatusCode r =? 200); cbn [negb]; [|reflexivity].
    destruct out; reflexivity.
Qed.

Lemma exchange_outcome (a : API) (method : string) (u : url.URL) (out : option T)
    (f : bool) :
  match snd (exchange a method u out f) with
  | Panic => response a method u = None
  | Return None =>
      exists r, response a method u = Some r /\ StatusCode r = 200
                /\ forall o, out = Some o -> snd (json.Decode (Body r) o) = None
  | Return (Some _) => exists r, response a method u = Some r
  end.
Proof.
  rewrite response_answer.
  destruct (trace.answer a method u) as [[[r|] err]|] eqn:Ha.
  - rewrite (exchange_answer _ _ _ _ _ _ _ Ha). cbv zeta.
    destruct (Z.eqb_spec (StatusCode r) 200) as [Hs|Hs]; cbn [negb snd].
    + destruct out as [o|]; cbn [snd].
      * destruct (snd (json.Decode (Body r) o)) eqn:Hd; cbn [option_map].
        -- eauto.
        -- exists r. repeat split; try assumption. intros o' [= <-]. exact Hd.
      * destruct err; cbn [option_map]; [eauto|].
        exists r. repeat split; try assumption. discriminate.
    + eauto.
  - unfold trace.answer in Ha. unfold exchange.
    destruct (url.NewRequest_ok _ _); [|discriminate].
    destruct (HTTPClient a) as [do|]; [|discriminate].
    injection Ha as Ha. rewrite Ha. reflexivity.
  - unfold trace.answer in Ha. unfold exchange.
    destruct (url.NewRequest_ok _ _); [|reflexivity].
    destruct (HTTPClient a) as [do|]; [discriminate|reflexivity].
Qed.

(** X7.  A call returns a nil error only after a response with status 200
    whose body, when an output value is given, decodes into it. *)
Theorem nil_error_only_on_decoded_ok (a : API) (method endpoint : string)
    (params : fmt.Params) (out : option T) (now : time.Time) :
  (snd (Request a method endpoint params out) = Return None ->
   exists u r, Request_URL a method endpoint params = Some u
               /\ response a method u = Some r /\ StatusCode r = 200
               /\ forall o, out = Some o -> snd (json.Decode (Body r) o) = None)
  /\ (snd (SignedRequest a method endpoint params out now) = Return None ->
      exists u r, SignedRequest_URL a endpoint params now = Some u
                  /\ response a method u = Some r /\ StatusCode r = 200
                  /\ forall o, out = Some o -> snd (json.Decode (Body r) o) = None).
Proof.
  split.
  - unfold Request. destruct (Request_URL a method endpoint params) as [u|];
      [|discriminate].
    intros Hret. pose proof (exchange_outcome a method u out false) as Ho.
    rewrite Hret in Ho. destruct Ho as (r & Hr). exists u, r. split; [reflexivity|exact Hr].
  - unfold SignedRequest. destruct (SignedRequest_URL a endpoint params now) as [u|];
      [|discriminate].
    intros Hret. pose proof (exchange_outcome a method u out true) as Ho.
    rewrite Hret in Ho. destruct Ho as (r & Hr). exists u, r. split; [reflexivity|exact Hr].
Qed.

(** X8.  A call panics exactly when it receives no response: the base URL
    does not parse, the request cannot be built, the client is nil, or the
    transport returns a nil response. *)
Theorem panics_iff_no_response (a : API) (method endpoint : string)
    (params : fmt.Params) (out : option T) (now : time.Time) :
  (snd (Request a method endpoint params out) = Panic
   <-> forall u, Request_URL a method endpoint params = Some u ->
                 response a method u = None)
  /\ (snd (SignedRequest a method endpoint params out now) = Panic
      <-> forall u, SignedRequest_URL a endpoint params now = Some u ->
                    response a method u = None).
Proof.
  assert (Hex : forall u f, snd (exchange a method u out f) = Panic
                            <-> response a method u = None).
  { intros u f. pose proof (exchange_outcome a method u out f) as Ho. split.
    - intros Hp. now rewrite Hp in Ho.
    - intros Hn. destruct (snd (exchange a method u out f)) as [|[e|]];
        [reflexivity | |]; destruct Ho as (r & Hr); try destruct Hr as (Hr & _);
        congruence. }
  split.
  - unfold Request. destruct (Request_URL a method endpoint params) as [u|].
    + rewrite Hex. split; [intros Hn u' [= <-]; exact Hn | intros Hall; now apply Hall].
    + split; [discriminate | reflexivity].
  - unfold SignedRequest. destruct (SignedRequest_URL a endpoint params now) as [u|].
    + rewrite Hex. split; [intros Hn u' [= <-]; exact Hn | intros Hall; now apply Hall].
    + split; [discriminate | reflexivity].
Qed.

(** X9.  The timestamp of the call does not replace a [timestamp] given in
    the parameters or in the base URL: the signed query keeps such values
    first and the call's timestamp after them; without them it holds the
    call's timestamp alone. *)
Theorem timestamp_added_beside_given_one (u : url.URL) (params : fmt.Params)
    (now : time.Time) :
  signed_Values u params now !! "timestamp"
  = Some (match fmt.Flatten params !! "timestamp" with
          | Some v => [fmt.Sprint v; timestamp now]
          | None => default [] (url.Query u !! "timestamp") ++ [timestamp now]
          end)
  /\ (forall k, k <> "timestamp" ->
        signed_Values u params now !! k
        = match fmt.Flatten params !! k with
          | Some v => Some [fmt.Sprint v]
          | None => url.Query u !! k
          end).
Proof.
  unfold signed_Values, url.Add. split.
  - rewrite lookup_insert_eq, set_all_lookup.
    now destruct (fmt.Flatten params !! "timestamp").
  - intros k Hk. rewrite lookup_insert_ne by congruence. apply set_all_lookup.
Qed.

(** X10.  A GET [Request] with an empty parameter bag on a base URL without
    a query resolves to an empty query.  The URL of the request it sends is
    then exactly what [URL.String] writes before a query, with no query and
    no question mark appended, unless the base URL ended in a question
    mark, which alone is appended; when the request can be built and the
    client is set, that request is logged and sent. *)
Theorem empty_bag_gives_no_query (a : API) (endpoint : string) (params : fmt.Params)
    (out : option T) (u0 : url.URL) :
  url.ParseRequestURI (URL a) = Some u0 ->
  fmt.Flatten params = ∅ ->
  url.Query u0 = ∅ ->
  let u := url.with_RawQuery (url.with_Path u0 (url.Path u0 +:+ endpoint)) EmptyString in
  let target := url.head u +:+ (if url.ForceQuery u0 then "?" else EmptyString) in
  Request_URL a "GET" endpoint params = Some u
  /\ (forall req, In (Do req) (fst (Request a "GET" endpoint params out)) ->
      Target req = target)
  /\ (forall do,
        url.NewRequest_ok "GET" target = true ->
        HTTPClient a = Some do ->
        exists rest,
          fst (Request a "GET" endpoint params out)
          = LogPrintf ("GET " +:+ target) :: Do (NewRequest a "GET" u) :: rest
          /\ Target (NewRequest a "GET" u) = target).
Proof.
  intros Hparse Hbag Hq u target.
  assert (Hurl : Request_URL a "GET" endpoint params = Some u).
  { unfold Request_URL. rewrite Hparse. cbn [String.eqb Ascii.eqb Bool.eqb].
    rewrite Hbag. unfold set_all. rewrite map_fold_empty.
    change (url.Query (url.with_Path u0 (url.Path u0 +:+ endpoint))) with (url.Query u0).
    rewrite Hq. reflexivity. }
  assert (Htarget : url.String_ u = target).
  { unfold url.String_, target, u.
    cbn [url.ForceQuery url.RawQuery url.with_RawQuery url.with_Path].
    destruct (url.ForceQuery u0); reflexivity. }
  split; [exact Hurl|]. split.
  - intros req Hin. unfold Request in Hin. rewrite Hurl in Hin.
    apply exchange_Do in Hin. subst req. exact Htarget.
  - intros do Hok Hc. unfold Request. rewrite Hurl. rewrite <- Htarget in Hok.
    destruct (exchange_sends a "GET" u out false do Hok Hc) as [rest Hrest].
    exists rest. rewrite <- Htarget. split; [exact Hrest | reflexivity].
Qed.

(** X11.  The signed request depends on the instant of the call through its
    whole second only: two calls within one second, all else equal, run
    alike, signature included. *)
Theorem same_second_same_signed_request (a : API) (method endpoint : string)
    (params : fmt.Params) (out : option T) (t1 t2 : time.Time) :
  time.Unix t1 = time.Unix t2 ->
  SignedRequest a method endpoint params out t1
  = SignedRequest a method endpoint params out t2.
Proof.
  intros Hsec. unfold SignedRequest, SignedRequest_URL, signed_Values, timestamp.
  now rewrite Hsec.
Qed.

(** X21.  A signed request signs what a GET [Request] on the same input
    sends, and the timestamp: its values before signing are those read back
    from the GET query with the timestamp added. *)
Theorem signed_query_extends_get_query (a : API) (endpoint : string)
    (params : fmt.Params) (now : time.Time) (u0 : url.URL) :
  url.ParseRequestURI (URL a) = Some u0 ->
  exists g,
    Request_URL a "GET" endpoint params = Some g
    /\ signed_Values (url.with_Path u0 (url.Path u0 +:+ endpoint)) params now
       = url.Add (url.ParseQuery (url.RawQuery g)) "timestamp" (timestamp now)
    /\ url.Path g = url.Path u0 +:+ endpoint.
Proof.
  intros Hparse. eexists. split.
  { unfold Request_URL. rewrite Hparse. cbn [String.eqb Ascii.eqb Bool.eqb]. reflexivity. }
  cbn [url.RawQuery url.Path url.with_RawQuery url.with_Path]. split; [|reflexivity].
  rewrite url_facts.ParseQuery_Encode
    by apply populated_set_all, url_facts.populated_ParseQuery.
  reflexivity.
Qed.

End Dispatcher.

End dispatcher_more.

(** ** The text of the signature and of the query *)

Module text_more.

Lemma length_be_bytes (n : nat) (x : Z) : length (sha256.be_bytes n x) = n.
Proof. induction n as [|n IH]; [reflexivity|]. cbn [sha256.be_bytes length]. now rewrite IH. Qed.

Lemma length_flat_be_bytes (ws : list Z) :
  length (flat_map (sha256.be_bytes 4) ws) = (4 * length ws)%nat.
Proof.
  induction ws as [|w ws IH]; [reflexivity|].
  cbn [flat_map]. rewrite length_app, length_be_bytes, IH. cbn [length]. lia.
Qed.

Lemma length_blocks (n : nat) :
  forall h bs, length h = 8%nat -> length (sha256.blocks n h bs) = 8%nat.
Proof.
  induction n as [|n IH]; intros h bs Hh; cbn [sha256.blocks]; [exact Hh|].
  apply IH. reflexivity.
Qed.

(** A SHA-256 digest has 32 bytes. *)
Lemma length_Sum256 (msg : list Z) : length (sha256.Sum256 msg) = 32%nat.
Proof.
  unfold sha256.Sum256. rewrite length_flat_be_bytes, length_blocks; reflexivity.
Qed.

Lemma length_EncodeToString (src : list Z) :
  String.length (hex.EncodeToString src) = (2 * length src)%nat.
Proof.
  induction src as [|v src IH]; [reflexivity|].
  cbn [hex.EncodeToString String.length length]. rewrite IH. lia.
Qed.

Lemma digit_lower_hex (n : Z) : trace.lower_hex (hex.digit n) = true.
Proof.
  unfold hex.digit. generalize (Z.to_nat n). intros k.
  do 16 (destruct k as [|k]; [reflexivity|]). reflexivity.
Qed.

Lemma EncodeToString_lower_hex (src : list Z) :
  trace.all_chars trace.lower_hex (hex.EncodeToString src) = true.
Proof.
  induction src as [|v src IH]; [reflexivity|].
  cbn [hex.EncodeToString trace.all_chars]. now rewrite !digit_lower_hex, IH.
Qed.

(** X12.  Whatever the secret key and the text, the signature is 64
    characters long and made of the digits [0-9] and [a-f]. *)
Theorem signature_is_64_lower_hex (a : client.API) (text : string) :
  String.length (client.sign a text) = 64%nat
  /\ trace.all_chars trace.lower_hex (client.sign a text) = true.
Proof.
  unfold client.sign. split.
  - rewrite length_EncodeToString. unfold hmac.Sum. now rewrite length_Sum256.
  - apply EncodeToString_lower_hex.
Qed.

Lemma all_chars_app (p : ascii -> bool) (x y : string) :
  trace.all_chars p (x +:+ y) = (trace.all_chars p x && trace.all_chars p y)%bool.
Proof.
  induction x as [|c x IH]; [reflexivity|].
  rewrite url_facts.append_String. cbn [trace.all_chars]. now rewrite IH, andb_assoc.
Qed.

Lemma QueryEscape_byte_chars (c : ascii) :
  trace.all_chars trace.query_char (url.QueryEscape (String c EmptyString)) = true.
Proof. destruct c as [[] [] [] [] [] [] [] []]; reflexivity. Qed.

Lemma QueryEscape_chars (s : string) :
  trace.all_chars trace.query_char (url.QueryEscape s) = true.
Proof.
  induction s as [|c s IH]; [reflexivity|].
  now rewrite url_facts.QueryEscape_cons, all_chars_app, QueryEscape_byte_chars, IH.
Qed.

Lemma Join_chars (segs : list string) :
  Forall (fun s => trace.all_chars trace.query_char s = true) segs ->
  trace.all_chars trace.query_char (url.Join "&" segs) = true.
Proof.
  induction segs as [|x l IH]; intros Hall; [reflexivity|].
  inversion Hall as [|? ? Hx Hl]; subst. destruct l as [|y l]; [exact Hx|].
  change (url.Join "&" (x :: y :: l)) with (x +:+ "&" +:+ url.Join "&" (y :: l)).
  rewrite !all_chars_app, Hx, (IH Hl). reflexivity.
Qed.

Lemma Encode_chars (v : url.Values) :
  trace.all_chars trace.query_char (url.Encode v) = true.
Proof.
  unfold url.Encode. apply Join_chars. apply Forall_forall. intros seg Hin.
  apply list_elem_of_In in Hin. apply in_flat_map in Hin as [k [_ Hin]].
  apply in_map_iff in Hin as [x [<- _]]. unfold url.pair_text.
  now rewrite !all_chars_app, !QueryEscape_chars.
Qed.

Lemma lower_hex_query_char (s : string) :
  trace.all_chars trace.lower_hex s = true -> trace.all_chars trace.query_char s = true.
Proof.
  induction s as [|c s IH]; [reflexivity|]. cbn [trace.all_chars].
  intros Hc. apply andb_true_iff in Hc as [Hc Hs]. rewrite (IH Hs), andb_true_r.
  revert Hc. destruct c as [[] [] [] [] [] [] [] []]; intros Hc;
    reflexivity || discriminate Hc.
Qed.

Section Queries.

Context `{NET : url.Net} `{DYN : fmt.Dynamic}.

(** X13.  Whatever the keys and values of the parameters, the query of a
    GET [Request] and the query of a [SignedRequest] are made of unreserved
    characters, percent escapes, plus signs, equal signs and ampersands
    only: no space, quote, hash or question mark of a value reaches the
    URL. *)
Theorem query_text_is_escaped (a : client.API) (endpoint : string)
    (params : fmt.Params) (now : time.Time) (u : url.URL) :
  client.Request_URL a "GET" endpoint params = Some u
  \/ client.SignedRequest_URL a endpoint params now = Some u ->
  trace.all_chars trace.query_char (url.RawQuery u) = true.
Proof.
  intros [Hu | Hu].
  - unfold client.Request_URL in Hu.
    destruct (url.ParseRequestURI (client.URL a)) as [u0|]; [|discriminate].
    cbn [String.eqb Ascii.eqb Bool.eqb] in Hu. injection Hu as <-.
    cbn [url.RawQuery url.with_RawQuery]. apply Encode_chars.
  - unfold client.SignedRequest_URL in Hu.
    destruct (url.ParseRequestURI (client.URL a)) as [u0|]; [|discriminate].
    injection Hu as <-. cbn [url.RawQuery url.with_RawQuery].
    rewrite !all_chars_app, Encode_chars.
    unfold client.sign. rewrite (lower_hex_query_char _ (EncodeToString_lower_hex _)).
    reflexivity.
Qed.

End Queries.

End text_more.

(** ** More on the Stream Subscriber *)

Module subscriber_more.
Import client.

Section Subscriber.

Context {H : Type}.
Variables (a : API) (endpoint : string) (handler : string -> H).

Lemma closes_app (xs ys : list (Action H)) :
  trace.closes (xs ++ ys) = trace.closes xs ++ trace.closes ys.
Proof.
  induction xs as [|x xs IH]; [reflexivity|].
  destruct x; cbn [app trace.closes]; now rewrite IH.
Qed.

(** One turn, in full. *)
Lemma turn_cases (first : nat) (s : Session) (i : Input) :
  let '(acts, st) := turn a endpoint handler first s i in
  match i with
  | Message m =>
      st = Open s /\ started acts = [handler m] /\ trace.closes acts = [] /\ dials acts = 0
  | ReadError _ _ redial =>
      started acts = [] /\
      if (AutoReconnect a && (reconnects s <? ReconnectLimit))%bool then
        trace.closes acts = [conn s] /\ dials acts = 1 /\
        match redial with
        | None => st = Open {| conn := S (conn s); reconnects := reconnects s + 1 |}
        | Some e => st = Exited /\ exists pre, acts = pre ++ [LogFatal ("dial:" +:+ e)]
        end
      else st = Closed /\ trace.closes acts = [first] /\ dials acts = 0
  end.
Proof.
  destruct i as [m | err closeErr redial]; cbn [turn].
  - repeat split.
  - destruct (AutoReconnect a && (reconnects s <? ReconnectLimit))%bool.
    + destruct redial as [e|]; cbn [connect]; destruct closeErr as [ce|];
        cbn [app started trace.closes dials]; repeat split.
      * now eexists [_; _; _; _].
      * now eexists [_; _; _].
    + repeat split.
Qed.

(** What a run of the loop has done when it stops or blocks: the handler
    runs started are those of a first part of the messages; one connection
    is closed per dial, in the order they were opened; an open session holds
    the connection of the last dial. *)
Lemma loop_trace (first : nat) (inputs : list Input) :
  forall s,
  let '(acts, st) := loop a endpoint handler first s inputs in
  exists (k : nat) (rest : list H),
    dials acts = Z.of_nat k
    /\ map handler (trace.messages inputs) = started acts ++ rest
    /\ match st with
       | Open s' =>
           rest = [] /\ conn s' = (conn s + k)%nat
           /\ trace.closes acts = seq (conn s) k
       | Closed => trace.closes acts = seq (conn s) k ++ [first]
       | Exited =>
           trace.closes acts = seq (conn s) k
           /\ exists pre e, acts = pre ++ [LogFatal ("dial:" +:+ e)]
       end.
Proof.
  induction inputs as [|i inputs IH]; intros s; cbn [loop].
  - exists 0%nat, []. repeat split. cbn. lia.
  - pose proof (turn_cases first s i) as Ht.
    destruct (turn a endpoint handler first s i) as [acts st].
    destruct i as [m | err closeErr redial]; cbn [trace.messages map].
    + destruct Ht as (-> & Hst & Hcl & Hd).
      specialize (IH s). destruct (loop a endpoint handler first s inputs) as [acts' st'].
      destruct IH as (k & rest & Hk & Hm & Hfin).
      exists k, rest. rewrite stream_facts.dials_app, stream_facts.started_app, closes_app.
      rewrite Hst, Hcl, Hd, Hm. repeat split; [lia|].
      destruct st' as [s'| |]; [exact Hfin | exact Hfin|].
      destruct Hfin as (Hcl' & pre & e & ->). split; [exact Hcl'|].
      exists (acts ++ pre), e. now rewrite app_assoc.
    + destruct Ht as (Hst & Ht).
      destruct (AutoReconnect a && (reconnects s <? ReconnectLimit))%bool.
      * destruct Ht as (Hcl & Hd & Hred). destruct redial as [e|].
        -- destruct Hred as (-> & pre & Hpre).
           exists 1%nat, (map handler (trace.messages inputs)).
           rewrite Hst, Hcl, Hd. repeat split. eauto.
        -- subst st.
           specialize (IH {| conn := S (conn s); reconnects := reconnects s + 1 |}).
           destruct (loop a endpoint handler first _ inputs) as [acts' st'].
           destruct IH as (k & rest & Hk & Hm & Hfin).
           exists (S k), rest.
           rewrite stream_facts.dials_app, stream_facts.started_app, closes_app.
           rewrite Hst, Hcl, Hd, Hm. cbn [conn] in Hfin. cbn [seq app].
           repeat split; [lia|].
           destruct st' as [s'| |].
           ++ destruct Hfin as (-> & Hc & Hcl'). repeat split; [lia | now rewrite Hcl'].
           ++ now rewrite Hfin.
           ++ destruct Hfin as (Hcl' & pre & e & ->). split; [now rewrite Hcl'|].
              exists (acts ++ pre), e. now rewrite app_assoc.
      * destruct Ht as (-> & Hcl & Hd).
        exists 0%nat, (map handler (trace.messages inputs)).
        rewrite Hst, Hcl, Hd. repeat split.
Qed.

(** X14.  Handlers are started on the messages in the order they were read,
    one run per message: the runs started make up a first part of the
    messages the transport has to give, the whole of it while the session
    is open. *)
Theorem handlers_started_in_order (dial : option string) (inputs : list Input) :
  exists rest,
    map handler (trace.messages inputs)
    = started (fst (Stream a endpoint handler dial inputs)) ++ rest
    /\ (forall s, snd (Stream a endpoint handler dial inputs) = Open s -> rest = []).
Proof.
  unfold Stream. destruct dial as [e|]; cbn [connect].
  - exists (map handler (trace.messages inputs)). split; [reflexivity | discriminate].
  - pose proof (loop_trace 0%nat inputs {| conn := 0%nat; reconnects := 0 |}) as Hl.
    destruct (loop a endpoint handler 0%nat _ inputs) as [acts st].
    destruct Hl as (k & rest & _ & Hm & Hfin). exists rest. cbn [fst snd app started].
    split; [exact Hm|]. intros s ->. now destruct Hfin.
Qed.

(** X15.  Before each reconnect the loop closes the connection it held, so
    an open session has closed every connection but the one it reads from.
    When the loop returns, its deferred close shuts the first connection,
    not the current one: after [k] reconnects the connections [0] to [k-1]
    and then [0] again are closed, and for [k >= 1] the connection last
    dialled is never closed. *)
Theorem deferred_close_is_the_first_connection (inputs : list Input) :
  let acts := fst (Stream a endpoint handler None inputs) in
  match snd (Stream a endpoint handler None inputs) with
  | Open s =>
      trace.closes acts = seq 0 (conn s) /\ dials acts = 1 + Z.of_nat (conn s)
  | Closed =>
      exists k : nat,
        dials acts = 1 + Z.of_nat k
        /\ trace.closes acts = seq 0 k ++ [0%nat]
        /\ ((0 < k)%nat -> ~ In k (trace.closes acts))
  | Exited => True
  end.
Proof.
  unfold Stream. cbn [connect].
  pose proof (loop_trace 0%nat inputs {| conn := 0%nat; reconnects := 0 |}) as Hl.
  destruct (loop a endpoint handler 0%nat _ inputs) as [acts st].
  destruct Hl as (k & rest & Hk & _ & Hfin). cbn [fst snd app dials trace.closes].
  cbn [conn] in Hfin. destruct st as [s| |]; [| |exact I].
  - destruct Hfin as (_ & -> & Hcl). cbn [Nat.add]. split; [exact Hcl | lia].
  - exists k. split; [lia|]. split; [exact Hfin|].
    intros Hpos Hin. rewrite Hfin in Hin. apply in_app_iff in Hin as [Hin | [Hin | []]].
    + apply in_seq in Hin. lia.
    + lia.
Qed.

(** X16.  The process is ended only by a failed dial: a run whose dials all
    succeed never exits, a run that exits ends on the fatal log of a dial
    error, and a failed first dial exits before anything is read. *)
Theorem exit_only_on_failed_dial (dial : option string) (inputs : list Input) :
  (dial = None -> forallb redial_ok inputs = true ->
   snd (Stream a endpoint handler dial inputs) <> Exited)
  /\ (snd (Stream a endpoint handler dial inputs) = Exited ->
      exists pre e, fst (Stream a endpoint handler dial inputs)
                    = pre ++ [LogFatal ("dial:" +:+ e)])
  /\ (forall e, dial = Some e ->
      Stream a endpoint handler dial inputs
      = ([Dial ("wss://stream.binance.com:9443/ws/" +:+ endpoint);
          LogFatal ("dial:" +:+ e)], Exited)).
Proof.
  split; [|split].
  - intros -> Hok. unfold Stream. cbn [connect].
    pose proof (stream_facts.loop_not_Exited a endpoint handler 0%nat inputs Hok
                  {| conn := 0%nat; reconnects := 0 |}) as Hne.
    destruct (loop a endpoint handler 0%nat _ inputs) as [acts st]. exact Hne.
  - unfold Stream. destruct dial as [e|]; cbn [connect].
    + intros _. now exists [Dial ("wss://stream.binance.com:9443/ws/" +:+ endpoint)], e.
    + pose proof (loop_trace 0%nat inputs {| conn := 0%nat; reconnects := 0 |}) as Hl.
      destruct (loop a endpoint handler 0%nat _ inputs) as [acts st].
      destruct Hl as (k & rest & _ & _ & Hfin). cbn [fst snd]. intros ->.
      destruct Hfin as (_ & pre & e & ->).
      now exists (Dial ("wss://stream.binance.com:9443/ws/" +:+ endpoint) :: pre), e.
  - intros e ->. reflexivity.
Qed.

Lemma read_errors_nonneg (inputs : list Input) : 0 <= read_errors inputs.
Proof. induction inputs as [|i r IH]; [cbn; lia|]. destruct i; cbn [read_errors]; lia. Qed.

Lemma loop_stays_open (first : nat) (inputs : list Input) :
  AutoReconnect a = true ->
  forallb redial_ok inputs = true ->
  forall s, reconnects s + read_errors inputs <= ReconnectLimit ->
  exists s', snd (loop a endpoint handler first s inputs) = Open s'.
Proof.
  intros Ha. induction inputs as [|i inputs IH]; intros Hok s Hs; cbn [loop].
  - eauto.
  - cbn [forallb] in Hok. apply andb_true_iff in Hok as [Hi Hok].
    pose proof (read_errors_nonneg inputs) as Hnn.
    destruct i as [m | err closeErr redial]; cbn [turn read_errors] in *.
    + destruct (IH Hok s Hs) as [s' Hs'].
      destruct (loop a endpoint handler first s inputs). eauto.
    + rewrite Ha. cbn [andb].
      destruct (Z.ltb_spec (reconnects s) ReconnectLimit) as [_|Hge]; [|lia].
      destruct redial as [e|]; [discriminate|]. cbn [connect].
      destruct (IH Hok {| conn := S (conn s); reconnects := reconnects s + 1 |})
        as [s' Hs']; [cbn [reconnects]; lia|].
      destruct (loop a endpoint handler first _ inputs). eauto.
Qed.

(** X17.  With auto-reconnect on, a run that meets at most ten read errors,
    its dials succeeding, stays open: it has reconnected once per read
    error, reads from the connection of the last dial and has started the
    handler on every message. *)
Theorem reconnects_keep_the_session_open (inputs : list Input) :
  AutoReconnect a = true ->
  forallb redial_ok inputs = true ->
  read_errors inputs <= ReconnectLimit ->
  snd (Stream a endpoint handler None inputs)
  = Open {| conn := Z.to_nat (read_errors inputs); reconnects := read_errors inputs |}
  /\ started (fst (Stream a endpoint handler None inputs))
     = map handler (trace.messages inputs)
  /\ dials (fst (Stream a endpoint handler None inputs)) = 1 + read_errors inputs.
Proof.
  intros Ha Hok Hle. unfold Stream. cbn [connect].
  destruct (loop_stays_open 0%nat inputs Ha Hok {| conn := 0%nat; reconnects := 0 |})
    as [s' Hs']; [cbn [reconnects]; lia|].
  pose proof (loop_trace 0%nat inputs {| conn := 0%nat; reconnects := 0 |}) as Hl.
  pose proof (stream_facts.loop_read_errors a endpoint handler 0%nat inputs
                {| conn := 0%nat; reconnects := 0 |}) as Hr.
  pose proof (stream_facts.loop_spec a endpoint handler 0%nat inputs
                {| conn := 0%nat; reconnects := 0 |}) as Hspec.
  destruct (loop a endpoint handler 0%nat _ inputs) as [acts st].
  cbn [snd] in Hs'. subst st. specialize (Hr _ _ eq_refl).
  destruct Hspec as [_ Hcount]; [cbn [reconnects]; unfold ReconnectLimit; lia|].
  destruct Hl as (k & rest & Hk & Hm & -> & Hc & _).
  cbn [conn reconnects] in *. cbn [fst snd app started dials].
  rewrite app_nil_r in Hm. split; [|split].
  - destruct s' as [c r]. cbn [conn reconnects] in *. f_equal; f_equal; lia.
  - now rewrite Hm.
  - lia.
Qed.

Lemma loop_closed_after_limit (first : nat) (inputs : list Input) :
  AutoReconnect a = true ->
  forall s, snd (loop a endpoint handler first s inputs) = Closed ->
            ReconnectLimit < reconnects s + read_errors inputs.
Proof.
  intros Ha. induction inputs as [|i inputs IH]; intros s; cbn [loop]; [discriminate|].
  pose proof (read_errors_nonneg inputs) as Hnn.
  destruct i as [m | err closeErr redial]; cbn [turn read_errors].
  - specialize (IH s). destruct (loop a endpoint handler first s inputs). exact IH.
  - rewrite Ha. cbn [andb].
    destruct (Z.ltb_spec (reconnects s) ReconnectLimit) as [Hlt|Hge].
    + destruct redial as [e|]; cbn [connect]; [discriminate|].
      specialize (IH {| conn := S (conn s); reconnects := reconnects s + 1 |}).
      destruct (loop a endpoint handler first _ inputs). cbn [snd reconnects] in *.
      intros Hcl. specialize (IH Hcl). lia.
    + intros _. lia.
Qed.

End Subscriber.

(** X18.  With auto-reconnect on, which is how [New] builds a client, the
    loop returns only at the read error that follows the tenth reconnect:
    a run that ends closed has met more than ten read errors. *)
Theorem closed_only_past_the_limit {H : Type} (endpoint : string) (handler : string -> H)
    (dial : option string) (inputs : list Input) :
  (forall a : API,
     AutoReconnect a = true ->
     snd (Stream a endpoint handler dial inputs) = Closed ->
     ReconnectLimit < read_errors inputs)
  /\ (forall (url key secretKey userAgent : string) (httpClient : option Transport),
        snd (Stream (New url key secretKey httpClient userAgent) endpoint handler
               dial inputs) = Closed ->
        ReconnectLimit < read_errors inputs).
Proof.
  assert (Hgen : forall a : API, AutoReconnect a = true ->
            snd (Stream a endpoint handler dial inputs) = Closed ->
            ReconnectLimit < read_errors inputs).
  { intros a Ha. unfold Stream. destruct dial as [e|]; cbn [connect]; [discriminate|].
    pose proof (loop_closed_after_limit a endpoint handler 0%nat inputs Ha
                  {| conn := 0%nat; reconnects := 0 |}) as Hl.
    destruct (loop a endpoint handler 0%nat _ inputs) as [acts st].
    cbn [snd reconnects] in *. intros Hcl. specialize (Hl Hcl). lia. }
  split; [exact Hgen|]. intros url key secretKey userAgent httpClient.
  apply Hgen. reflexivity.
Qed.

End subscriber_more.

(** ** More on the subscription topics *)

Module topic_more.
Import stream.

Lemma lower_idempotent (c : ascii) : gostrings.lower (gostrings.lower c) = gostrings.lower c.
Proof. destruct c as [[] [] [] [] [] [] [] []]; reflexivity. Qed.

Lemma lower_not_upper (c : ascii) : trace.upper (gostrings.lower c) = false.
Proof. destruct c as [[] [] [] [] [] [] [] []]; reflexivity. Qed.

Lemma lower_ASCII (c : ascii) :
  N.ltb (N_of_ascii c) 128 = true -> N.ltb (N_of_ascii (gostrings.lower c)) 128 = true.
Proof. destruct c as [[] [] [] [] [] [] [] []]; intros Hc; reflexivity || discriminate Hc. Qed.

Lemma isASCII_cons (c : ascii) (s : string) :
  gostrings.isASCII (String c s)
  = (N.ltb (N_of_ascii c) 128 && gostrings.isASCII s)%bool.
Proof. reflexivity. Qed.

Lemma map_lower_ASCII (s : string) :
  gostrings.isASCII s = true ->
  gostrings.isASCII (gostrings.map_bytes gostrings.lower s) = true.
Proof.
  induction s as [|c s IH]; [reflexivity|].
  rewrite isASCII_cons. intros Hs. apply andb_true_iff in Hs as [Hc Hs].
  cbn [gostrings.map_bytes]. rewrite isASCII_cons, (lower_ASCII c Hc), (IH Hs). reflexivity.
Qed.

Lemma map_lower_idempotent (s : string) :
  gostrings.map_bytes gostrings.lower (gostrings.map_bytes gostrings.lower s)
  = gostrings.map_bytes gostrings.lower s.
Proof.
  induction s as [|c s IH]; [reflexivity|].
  cbn [gostrings.map_bytes]. now rewrite lower_idempotent, IH.
Qed.

Lemma map_lower_no_upper (s : string) :
  trace.all_chars (fun c => negb (trace.upper c)) (gostrings.map_bytes gostrings.lower s)
  = true.
Proof.
  induction s as [|c s IH]; [reflexivity|].
  cbn [gostrings.map_bytes trace.all_chars]. now rewrite lower_not_upper, IH.
Qed.

Lemma append_inj (x y z : string) : x +:+ y = x +:+ z -> y = z.
Proof.
  induction x as [|c x IH]; [trivial|].
  rewrite !url_facts.append_String. intros [= Heq]. now apply IH.
Qed.

Section Topics.

Context `{UNI : gostrings.Unicode}.

(** X19.  The topic does not depend on the case of an ASCII symbol: the
    symbol and its lower-cased form give the same depth and kline topics,
    and the symbol part of the topic holds no upper-case letter. *)
Theorem topic_ignores_symbol_case (symbol interval : string) :
  gostrings.isASCII symbol = true ->
  Depth_endpoint {| Symbol := gostrings.ToLower symbol |}
  = Depth_endpoint {| Symbol := symbol |}
  /\ Kline_endpoint {| KlineSymbol := gostrings.ToLower symbol; Interval := interval |}
     = Kline_endpoint {| KlineSymbol := symbol; Interval := interval |}
  /\ trace.all_chars (fun c => negb (trace.upper c)) (gostrings.ToLower symbol) = true.
Proof.
  intros Hs.
  assert (Htwice : gostrings.ToLower (gostrings.ToLower symbol) = gostrings.ToLower symbol).
  { assert (Hlow : gostrings.ToLower symbol = gostrings.map_bytes gostrings.lower symbol)
      by (unfold gostrings.ToLower; now rewrite Hs).
    rewrite Hlow. unfold gostrings.ToLower.
    now rewrite (map_lower_ASCII symbol Hs), map_lower_idempotent. }
  unfold Depth_endpoint, Kline_endpoint. cbn [Symbol KlineSymbol Interval].
  rewrite Htwice. repeat split.
  unfold gostrings.ToLower. rewrite Hs. apply map_lower_no_upper.
Qed.

(** X20.  The interval goes into the kline topic as it is given, its case
    kept: for one symbol, two intervals that differ give two topics. *)
Theorem kline_topic_keeps_interval (symbol i1 i2 : string) :
  i1 <> i2 ->
  Kline_endpoint {| KlineSymbol := symbol; Interval := i1 |}
  <> Kline_endpoint {| KlineSymbol := symbol; Interval := i2 |}.
Proof.
  unfold Kline_endpoint. cbn [KlineSymbol Interval]. intros Hne Heq.
  apply append_inj in Heq. apply (append_inj "@kline_") in Heq. contradiction.
Qed.

End Topics.

End topic_more.

(** ** The further theorems at concrete inputs *)

Module more_examples.
Import Reference Samples.

Lemma X1_witness :
  "POST" <> "GET"
  /\ client.Request (T:=StreamEvent) api "POST" "/api/v3/order" order None
     = client.Request api "POST" "/api/v3/order" no_params None.
Proof.
  assert (Hm : "POST" <> "GET") by (apply String.eqb_neq; reflexivity).
  split; [exact Hm|].
  exact (proj1 (dispatcher_more.Request_other_methods_ignore_params (T:=StreamEvent)
                  api "POST" "/api/v3/order" order no_params None Hm)).
Defined.

Lemma X2_witness :
  In (client.Do depth_request)
     (fst (client.Request (T:=StreamEvent) api "GET" "/api/v1/depth" order None))
  /\ exists rest,
       fst (client.Request (T:=StreamEvent) api "GET" "/api/v1/depth" order None)
       = client.LogPrintf "GET https://api.binance.com/api/v1/depth?side=BUY&symbol=LTCBTC"
           :: client.Do depth_request :: rest
       /\ trace.sent rest = [].
Proof.
  assert (Hin : In (client.Do depth_request)
                   (fst (client.Request (T:=StreamEvent) api "GET" "/api/v1/depth" order None)))
    by (vm_compute; right; left; reflexivity).
  split; [exact Hin|].
  exact (proj1 (dispatcher_more.log_line_precedes_the_one_send (T:=StreamEvent)
                  api "GET" "/api/v1/depth" order None instant depth_request) Hin).
Defined.

Lemma X3_witness :
  In (client.Do depth_request)
     (fst (client.Request (T:=StreamEvent) api "GET" "/api/v1/depth" order None))
  /\ client.Header depth_request !! "X-Mbx-Apikey" = Some [client.Key api]
  /\ client.Header depth_request !! "X-MBX-APIKEY" = None.
Proof.
  assert (Hin : In (client.Do depth_request)
                   (fst (client.Request (T:=StreamEvent) api "GET" "/api/v1/depth" order None)))
    by (vm_compute; right; left; reflexivity).
  split; [exact Hin|].
  destruct (dispatcher_more.sent_request_headers (T:=StreamEvent)
              api "GET" "/api/v1/depth" order None instant depth_request
              (or_introl Hin)) as (Hh & (_ & Hraw & _) & _).
  split; [|exact Hraw]. rewrite Hh. reflexivity.
Defined.

Lemma X4_witness :
  client.StatusCode {| client.StatusCode := 200; client.Body := ping |} = 200
  /\ snd (client.Request (T:=StreamEvent) healthy "GET" "/api/v1/depth" order None)
     = client.Return None.
Proof.
  assert (Hs : client.StatusCode {| client.StatusCode := 200; client.Body := ping |} = 200)
    by reflexivity.
  split; [exact Hs|].
  destruct (dispatcher_more.ok_without_output_returns_transport_error (T:=StreamEvent)
              healthy "GET" "/api/v1/depth" order instant _ None Hs) as [Hreq _].
  destruct (Hreq depth_url) as [Hret _]; [vm_compute; reflexivity ..|exact Hret].
Defined.

Lemma X5_witness :
  client.StatusCode {| client.StatusCode := 200; client.Body := ping |} = 200
  /\ snd (client.Request healthy "GET" "/api/v1/depth" order (Some (json.zero : StreamEvent)))
     = client.Return None
  /\ trace.outputs
       (fst (client.Request healthy "GET" "/api/v1/depth" order (Some (json.zero : StreamEvent))))
     = [{| EventType := "ping"; EventTime := 7 |}].
Proof.
  assert (Hs : client.StatusCode {| client.StatusCode := 200; client.Body := ping |} = 200)
    by reflexivity.
  split; [exact Hs|].
  destruct (dispatcher_more.ok_with_output_returns_decoder_error
              healthy "GET" "/api/v1/depth" order (json.zero : StreamEvent) instant _ None Hs)
    as [Hreq _].
  destruct (Hreq depth_url) as [Hret Hout]; [vm_compute; reflexivity ..|].
  split; [exact Hret | exact Hout].
Defined.

Lemma X6_witness :
  trace.body_closes
    (fst (client.SignedRequest (T:=StreamEvent) healthy "POST" "/api/v3/order" order None instant))
  = 2%nat.
Proof.
  destruct (dispatcher_more.body_closed_twice_by_signed_ok (T:=StreamEvent)
              healthy "POST" "/api/v3/order" order None instant
              {| client.StatusCode := 200; client.Body := ping |} None) as [_ Hsig].
  eapply Hsig; vm_compute; reflexivity.
Defined.

Lemma X7_witness :
  snd (client.Request (T:=StreamEvent) healthy "GET" "/api/v1/depth" order None)
  = client.Return None
  /\ exists u r,
       client.Request_URL healthy "GET" "/api/v1/depth" order = Some u
       /\ client.response healthy "GET" u = Some r /\ client.StatusCode r = 200.
Proof.
  assert (Hret : snd (client.Request (T:=StreamEvent) healthy "GET" "/api/v1/depth" order None)
                 = client.Return None) by (vm_compute; reflexivity).
  split; [exact Hret|].
  destruct (proj1 (dispatcher_more.nil_error_only_on_decoded_ok (T:=StreamEvent)
                     healthy "GET" "/api/v1/depth" order None instant) Hret)
    as (u & r & Hu & Hr & Hs & _).
  exists u, r. auto.
Defined.

Lemma X8_witness :
  (forall u, client.Request_URL misconfigured "GET" "/api/v1/depth" order = Some u ->
             client.response misconfigured "GET" u = None)
  /\ snd (client.Request (T:=StreamEvent) misconfigured "GET" "/api/v1/depth" order None)
     = client.Panic.
Proof.
  assert (Hnone : forall u,
            client.Request_URL misconfigured "GET" "/api/v1/depth" order = Some u ->
            client.response misconfigured "GET" u = None)
    by (intros u Hu; vm_compute in Hu; discriminate Hu).
  split; [exact Hnone|].
  exact (proj2 (proj1 (dispatcher_more.panics_iff_no_response (T:=StreamEvent)
                         misconfigured "GET" "/api/v1/depth" order None instant)) Hnone).
Defined.

Lemma X9_witness :
  client.signed_Values base timed_order instant !! "timestamp"
  = Some ["1"; "1499827319000"].
Proof.
  rewrite (proj1 (dispatcher_more.timestamp_added_beside_given_one base timed_order instant)).
  vm_compute. reflexivity.
Defined.

Lemma X10_witness :
  url.ParseRequestURI (client.URL api) = Some base
  /\ fmt.Flatten no_params = ∅
  /\ url.Query base = ∅
  /\ url.NewRequest_ok "GET" "https://api.binance.com/api/v1/ping" = true
  /\ client.HTTPClient api = Some (canned 400 illegal_characters)
  /\ client.Request_URL api "GET" "/api/v1/ping" no_params = Some ping_url
  /\ exists rest,
       fst (client.Request (T:=StreamEvent) api "GET" "/api/v1/ping" no_params None)
       = client.LogPrintf "GET https://api.binance.com/api/v1/ping"
           :: client.Do (client.NewRequest api "GET" ping_url) :: rest
       /\ client.Target (client.NewRequest api "GET" ping_url)
          = "https://api.binance.com/api/v1/ping".
Proof.
  assert (Hbase : url.ParseRequestURI (client.URL api) = Some base) by reflexivity.
  assert (Hbag : fmt.Flatten no_params = ∅) by reflexivity.
  assert (Hq : url.Query base = ∅) by reflexivity.
  assert (Hok : url.NewRequest_ok "GET" "https://api.binance.com/api/v1/ping" = true)
    by (vm_compute; reflexivity).
  assert (Hc : client.HTTPClient api = Some (canned 400 illegal_characters))
    by reflexivity.
  split; [exact Hbase|]. split; [exact Hbag|]. split; [exact Hq|].
  split; [exact Hok|]. split; [exact Hc|].
  destruct (dispatcher_more.empty_bag_gives_no_query (T:=StreamEvent)
              api "/api/v1/ping" no_params None base Hbase Hbag Hq) as (Hurl & _ & Hsend).
  split; [exact Hurl|].
  exact (Hsend (canned 400 illegal_characters) Hok Hc).
Defined.

Lemma X11_witness :
  time.Unix instant = time.Unix (instant + 440999999)
  /\ client.SignedRequest (T:=StreamEvent) api "POST" "/api/v3/order" order None instant
     = client.SignedRequest api "POST" "/api/v3/order" order None (instant + 440999999).
Proof.
  assert (Hsec : time.Unix instant = time.Unix (instant + 440999999)) by reflexivity.
  split; [exact Hsec|].
  exact (dispatcher_more.same_second_same_signed_request (T:=StreamEvent)
           api "POST" "/api/v3/order" order None instant (instant + 440999999) Hsec).
Defined.

Lemma X13_witness :
  client.Request_URL api "GET" "/api/v1/depth" spaced_order
  = Some (url.mkURL "https" "api.binance.com" "/api/v1/depth" false
            "note=a+b%26c%3Dd%23e%3Ff&side=BUY&symbol=LTCBTC")
  /\ trace.all_chars trace.query_char "note=a+b%26c%3Dd%23e%3Ff&side=BUY&symbol=LTCBTC" = true.
Proof.
  assert (Hu : client.Request_URL api "GET" "/api/v1/depth" spaced_order
               = Some (url.mkURL "https" "api.binance.com" "/api/v1/depth" false
                         "note=a+b%26c%3Dd%23e%3Ff&side=BUY&symbol=LTCBTC"))
    by (vm_compute; reflexivity).
  split; [exact Hu|].
  exact (text_more.query_text_is_escaped api "/api/v1/depth" spaced_order instant _
           (or_introl Hu)).
Defined.

Lemma X14_witness :
  snd (client.Stream api "btcusdt@depth" (fun m => m) None
         [client.Message "a"; read_error; client.Message "b"])
  = client.Open {| client.conn := 1%nat; client.reconnects := 1 |}
  /\ client.started (fst (client.Stream api "btcusdt@depth" (fun m => m) None
                            [client.Message "a"; read_error; client.Message "b"]))
     = ["a"; "b"].
Proof.
  assert (Hopen : snd (client.Stream api "btcusdt@depth" (fun m : string => m) None
                         [client.Message "a"; read_error; client.Message "b"])
                  = client.Open {| client.conn := 1%nat; client.reconnects := 1 |})
    by reflexivity.
  split; [exact Hopen|].
  destruct (subscriber_more.handlers_started_in_order api "btcusdt@depth"
              (fun m : string => m) None
              [client.Message "a"; read_error; client.Message "b"]) as (rest & Hm & Hrest).
  rewrite (Hrest _ Hopen), app_nil_r in Hm. symmetry. exact Hm.
Defined.

Lemma X15_witness :
  snd (client.Stream api "btcusdt@depth" (fun m => m) None (repeat read_error 11))
  = client.Closed
  /\ exists k : nat,
       client.dials (fst (client.Stream api "btcusdt@depth" (fun m => m) None
                            (repeat read_error 11))) = 1 + Z.of_nat k
       /\ trace.closes (fst (client.Stream api "btcusdt@depth" (fun m => m) None
                               (repeat read_error 11)))
          = seq 0 k ++ [0%nat].
Proof.
  assert (Hclosed : snd (client.Stream api "btcusdt@depth" (fun m : string => m) None
                           (repeat read_error 11)) = client.Closed)
    by (vm_compute; reflexivity).
  split; [exact Hclosed|].
  pose proof (subscriber_more.deferred_close_is_the_first_connection api "btcusdt@depth"
                (fun m : string => m) (repeat read_error 11)) as Hx.
  rewrite Hclosed in Hx. destruct Hx as (k & Hd & Hc & _).
  exists k. split; [exact Hd | exact Hc].
Defined.

Lemma X16_witness :
  snd (client.Stream api "btcusdt@depth" (fun m => m) None
         [read_error; failed_redial; client.Message "late"])
  = client.Exited
  /\ exists pre e,
       fst (client.Stream api "btcusdt@depth" (fun m => m) None
              [read_error; failed_redial; client.Message "late"])
       = pre ++ [client.LogFatal ("dial:" +:+ e)].
Proof.
  assert (Hexit : snd (client.Stream api "btcusdt@depth" (fun m : string => m) None
                         [read_error; failed_redial; client.Message "late"])
                  = client.Exited) by reflexivity.
  split; [exact Hexit|].
  exact (proj1 (proj2 (subscriber_more.exit_only_on_failed_dial api "btcusdt@depth"
                         (fun m : string => m) None
                         [read_error; failed_redial; client.Message "late"])) Hexit).
Defined.

Lemma X17_witness :
  client.AutoReconnect api = true
  /\ forallb client.redial_ok (repeat read_error 10 ++ [client.Message "still here"]) = true
  /\ client.read_errors (repeat read_error 10 ++ [client.Message "still here"])
     <= client.ReconnectLimit
  /\ snd (client.Stream api "btcusdt@depth" (fun m => m) None
            (repeat read_error 10 ++ [client.Message "still here"]))
     = client.Open {| client.conn := 10%nat; client.reconnects := 10 |}.
Proof.
  assert (Ha : client.AutoReconnect api = true) by reflexivity.
  assert (Hok : forallb client.redial_ok
                  (repeat read_error 10 ++ [client.Message "still here"]) = true)
    by reflexivity.
  assert (Hle : client.read_errors (repeat read_error 10 ++ [client.Message "still here"])
                <= client.ReconnectLimit) by (vm_compute; discriminate).
  split; [exact Ha|]. split; [exact Hok|]. split; [exact Hle|].
  exact (proj1 (subscriber_more.reconnects_keep_the_session_open api "btcusdt@depth"
                  (fun m : string => m) _ Ha Hok Hle)).
Defined.

Lemma X18_witness :
  snd (client.Stream (client.New "https://api.binance.com" "key" secret None "agent")
         "btcusdt@depth" (fun m => m) None (repeat read_error 11))
  = client.Closed
  /\ client.ReconnectLimit < client.read_errors (repeat read_error 11).
Proof.
  assert (Hclosed : snd (client.Stream
                           (client.New "https://api.binance.com" "key" secret None "agent")
                           "btcusdt@depth" (fun m : string => m) None (repeat read_error 11))
                    = client.Closed) by (vm_compute; reflexivity).
  split; [exact Hclosed|].
  exact (proj2 (subscriber_more.closed_only_past_the_limit "btcusdt@depth"
                  (fun m : string => m) None (repeat read_error 11))
           _ _ _ _ _ Hclosed).
Defined.

Lemma X19_witness :
  gostrings.isASCII "BtcUsdt" = true
  /\ stream.Depth_endpoint {| stream.Symbol := gostrings.ToLower "BtcUsdt" |}
     = stream.Depth_endpoint {| stream.Symbol := "BtcUsdt" |}.
Proof.
  assert (Hs : gostrings.isASCII "BtcUsdt" = true) by reflexivity.
  split; [exact Hs|].
  exact (proj1 (topic_more.topic_ignores_symbol_case "BtcUsdt" "1m" Hs)).
Defined.

Lemma X20_witness :
  "1m" <> "1M"
  /\ stream.Kline_endpoint {| stream.KlineSymbol := "BTCUSDT"; stream.Interval := "1m" |}
     <> stream.Kline_endpoint {| stream.KlineSymbol := "BTCUSDT"; stream.Interval := "1M" |}.
Proof.
  assert (Hne : "1m" <> "1M") by (apply String.eqb_neq; reflexivity).
  split; [exact Hne|].
  exact (topic_more.kline_topic_keeps_interval "BTCUSDT" "1m" "1M" Hne).
Defined.

Lemma X21_witness :
  url.ParseRequestURI (client.URL api) = Some base
  /\ exists g,
       client.Request_URL api "GET" "/api/v3/order" order = Some g
       /\ client.signed_Values (url.with_Path base (url.Path base +:+ "/api/v3/order"))
            order instant
          = url.Add (url.ParseQuery (url.RawQuery g)) "timestamp" (client.timestamp instant).
Proof.
  assert (Hbase : url.ParseRequestURI (client.URL api) = Some base) by reflexivity.
  split; [exact Hbase|].
  destruct (dispatcher_more.signed_query_extends_get_query
              api "/api/v3/order" order instant base Hbase) as (g & Hg & Hv & _).
  exists g. split; [exact Hg | exact Hv].
Defined.

End more_examples.
